(** * b3270: the event and action layer of a 3270 emulator back end

    A shallow embedding of [Common/tables.c] and of the version check, the
    connection and statistics tracker, the security tracker, the toggle
    handler, the xterm text escape and the [Model], [Trace] and
    [ClearRegion] actions of [Common/b3270/b3270.c].

    C [int] and [unsigned long] values are [Z]; the screen buffer [ea_buf]
    is a list of cells read and written through [Z] addresses, and an
    access outside the list (undefined behaviour in C) makes the action
    return [None].  C strings are [string]s and a [char *] into one is an
    offset. *)

From Stdlib Require Import ZArith Ascii String List Bool Lia.
From stdpp Require Import base tactics option list numbers strings pretty gmap.

#[local] Open Scope string_scope.
#[local] Open Scope list_scope.
#[local] Open Scope Z_scope.

(** ** Translation tables ([Common/tables.c]) *)

Module Tables.

(** One line of a table as [tables.c] lays it out: eight entries, after
    the offset of the first. *)
Definition line (a b c d e f g h : Z) : list Z := [a; b; c; d; e; f; g; h].

(** EBCDIC to ISO 8859-1. *)
Definition ebc2asc0 : list Z := concat [
    (*00*) line 0x20 0x20 0x20 0x20 0x20 0x20 0x20 0x20;
    (*08*) line 0x20 0x20 0x20 0x20 0x20 0x20 0x20 0x20;
    (*10*) line 0x20 0x20 0x20 0x20 0x20 0x20 0x20 0x20;
    (*18*) line 0x20 0x20 0x20 0x20 0x2a 0x20 0x3b 0x20;
    (*20*) line 0x20 0x20 0x20 0x20 0x20 0x20 0x20 0x20;
    (*28*) line 0x20 0x20 0x20 0x20 0x20 0x20 0x20 0x20;
    (*30*) line 0x20 0x20 0x20 0x20 0x20 0x20 0x20 0x20;
    (*38*) line 0x20 0x20 0x20 0x20 0x20 0x20 0x20 0x20;
    (*40*) line 0x20 0x20 0xe2 0xe4 0xe0 0xe1 0xe3 0xe5;
    (*48*) line 0xe7 0xf1 0xa2 0x2e 0x3c 0x28 0x2b 0x7c;
    (*50*) line 0x26 0xe9 0xea 0xeb 0xe8 0xed 0xee 0xef;
    (*58*) line 0xec 0xdf 0x21 0x24 0x2a 0x29 0x3b 0xac;
    (*60*) line 0x2d 0x2f 0xc2 0xc4 0xc0 0xc1 0xc3 0xc5;
    (*68*) line 0xc7 0xd1 0xa6 0x2c 0x25 0x5f 0x3e 0x3f;
    (*70*) line 0xf8 0xc9 0xca 0xcb 0xc8 0xcd 0xce 0xcf;
    (*78*) line 0xcc 0x60 0x3a 0x23 0x40 0x27 0x3d 0x22;
    (*80*) line 0xd8 0x61 0x62 0x63 0x64 0x65 0x66 0x67;
    (*88*) line 0x68 0x69 0xab 0xbb 0xf0 0xfd 0xfe 0xb1;
    (*90*) line 0xb0 0x6a 0x6b 0x6c 0x6d 0x6e 0x6f 0x70;
    (*98*) line 0x71 0x72 0xaa 0xba 0xe6 0xb8 0xc6 0xa4;
    (*a0*) line 0xb5 0x7e 0x73 0x74 0x75 0x76 0x77 0x78;
    (*a8*) line 0x79 0x7a 0xa1 0xbf 0xd0 0xdd 0xde 0xae;
    (*b0*) line 0x5e 0xa3 0xa5 0xb7 0xa9 0xa7 0xb6 0xbc;
    (*b8*) line 0xbd 0xbe 0x5b 0x5d 0xaf 0xa8 0xb4 0xd7;
    (*c0*) line 0x7b 0x41 0x42 0x43 0x44 0x45 0x46 0x47;
    (*c8*) line 0x48 0x49 0xad 0xf4 0xf6 0xf2 0xf3 0xf5;
    (*d0*) line 0x7d 0x4a 0x4b 0x4c 0x4d 0x4e 0x4f 0x50;
    (*d8*) line 0x51 0x52 0xb9 0xfb 0xfc 0xf9 0xfa 0xff;
    (*e0*) line 0x5c 0xf7 0x53 0x54 0x55 0x56 0x57 0x58;
    (*e8*) line 0x59 0x5a 0xb2 0xd4 0xd6 0xd2 0xd3 0xd5;
    (*f0*) line 0x30 0x31 0x32 0x33 0x34 0x35 0x36 0x37;
    (*f8*) line 0x38 0x39 0xb3 0xdb 0xdc 0xd9 0xda 0x20 ].

(** ISO 8859-1 to EBCDIC. *)
Definition asc2ebc0 : list Z := concat [
    (*00*) line 0x00 0x00 0x00 0x00 0x00 0x00 0x00 0x00;
    (*08*) line 0x00 0x00 0x00 0x00 0x00 0x00 0x00 0x00;
    (*10*) line 0x00 0x00 0x00 0x00 0x00 0x00 0x00 0x00;
    (*18*) line 0x00 0x00 0x00 0x00 0x00 0x00 0x00 0x00;
    (*20*) line 0x40 0x5a 0x7f 0x7b 0x5b 0x6c 0x50 0x7d;
    (*28*) line 0x4d 0x5d 0x5c 0x4e 0x6b 0x60 0x4b 0x61;
    (*30*) line 0xf0 0xf1 0xf2 0xf3 0xf4 0xf5 0xf6 0xf7;
    (*38*) line 0xf8 0xf9 0x7a 0x5e 0x4c 0x7e 0x6e 0x6f;
    (*40*) line 0x7c 0xc1 0xc2 0xc3 0xc4 0xc5 0xc6 0xc7;
    (*48*) line 0xc8 0xc9 0xd1 0xd2 0xd3 0xd4 0xd5 0xd6;
    (*50*) line 0xd7 0xd8 0xd9 0xe2 0xe3 0xe4 0xe5 0xe6;
    (*58*) line 0xe7 0xe8 0xe9 0xba 0xe0 0xbb 0xb0 0x6d;
    (*60*) line 0x79 0x81 0x82 0x83 0x84 0x85 0x86 0x87;
    (*68*) line 0x88 0x89 0x91 0x92 0x93 0x94 0x95 0x96;
    (*70*) line 0x97 0x98 0x99 0xa2 0xa3 0xa4 0xa5 0xa6;
    (*78*) line 0xa7 0xa8 0xa9 0xc0 0x4f 0xd0 0xa1 0x00;
    (*80*) line 0x00 0x00 0x00 0x00 0x00 0x00 0x00 0x00;
    (*88*) line 0x00 0x00 0x00 0x00 0x00 0x00 0x00 0x00;
    (*90*) line 0x00 0x00 0x00 0x00 0x00 0x00 0x00 0x00;
    (*98*) line 0x00 0x00 0x00 0x00 0x00 0x00 0x00 0x00;
    (*a0*) line 0x41 0xaa 0x4a 0xb1 0x9f 0xb2 0x6a 0xb5;
    (*a8*) line 0xbd 0xb4 0x9a 0x8a 0x5f 0xca 0xaf 0xbc;
    (*b0*) line 0x90 0x8f 0xea 0xfa 0xbe 0xa0 0xb6 0xb3;
    (*b8*) line 0x9d 0xda 0x9b 0x8b 0xb7 0xb8 0xb9 0xab;
    (*c0*) line 0x64 0x65 0x62 0x66 0x63 0x67 0x9e 0x68;
    (*c8*) line 0x74 0x71 0x72 0x73 0x78 0x75 0x76 0x77;
    (*d0*) line 0xac 0x69 0xed 0xee 0xeb 0xef 0xec 0xbf;
    (*d8*) line 0x80 0xfd 0xfe 0xfb 0xfc 0xad 0xae 0x59;
    (*e0*) line 0x44 0x45 0x42 0x46 0x43 0x47 0x9c 0x48;
    (*e8*) line 0x54 0x51 0x52 0x53 0x58 0x55 0x56 0x57;
    (*f0*) line 0x8c 0x49 0xcd 0xce 0xcb 0xcf 0xcc 0xe1;
    (*f8*) line 0x70 0xdd 0xde 0xdb 0xdc 0x8d 0x8e 0xdf ].

(** [tbl[i]]: the tables have 256 entries and are indexed by a byte. *)
Definition at_index (tbl : list Z) (i : Z) : option Z :=
  if (i <? 0) then None else tbl !! Z.to_nat i.

(** The codes [0 .. 255]. *)
Definition all_bytes : list Z := seqZ 0 256.

(** The first byte other than [b] that [tbl] sends to the image of [b]. *)
Definition collision (tbl : list Z) (b : Z) : option Z :=
  List.find (fun b' => negb (b' =? b) && bool_decide (at_index tbl b' = at_index tbl b))
            all_bytes.

(** [asc2ebc0[ebc2asc0[b]]] *)
Definition round_trip (b : Z) : option Z :=
  a ← at_index ebc2asc0 b; at_index asc2ebc0 a.

(** ISO 8859-1 to character-generator index. *)
Definition asc2cg0 : list Z := concat [
    (*00*) line 0x00 0x00 0x00 0x00 0x00 0x00 0x00 0x00;
    (*08*) line 0x00 0x00 0x00 0x00 0x00 0x00 0x00 0x00;
    (*10*) line 0x00 0x00 0x00 0x00 0x00 0x00 0x00 0x00;
    (*18*) line 0x00 0x00 0x00 0x00 0x00 0x00 0x00 0x00;
    (*20*) line 0x10 0x19 0x13 0x2c 0x1a 0x2e 0x30 0x12;
    (*28*) line 0x0d 0x0c 0xbf 0x35 0x33 0x31 0x32 0x14;
    (*30*) line 0x20 0x21 0x22 0x23 0x24 0x25 0x26 0x27;
    (*38*) line 0x28 0x29 0x34 0xbe 0x09 0x11 0x08 0x18;
    (*40*) line 0x2d 0xa0 0xa1 0xa2 0xa3 0xa4 0xa5 0xa6;
    (*48*) line 0xa7 0xa8 0xa9 0xaa 0xab 0xac 0xad 0xae;
    (*50*) line 0xaf 0xb0 0xb1 0xb2 0xb3 0xb4 0xb5 0xb6;
    (*58*) line 0xb7 0xb8 0xb9 0x0a 0x15 0x0b 0x3a 0x2f;
    (*60*) line 0x3d 0x80 0x81 0x82 0x83 0x84 0x85 0x86;
    (*68*) line 0x87 0x88 0x89 0x8a 0x8b 0x8c 0x8d 0x8e;
    (*70*) line 0x8f 0x90 0x91 0x92 0x93 0x94 0x95 0x96;
    (*78*) line 0x97 0x98 0x99 0x0f 0x16 0x0e 0x3b 0x00;
    (*80*) line 0x00 0x00 0x00 0x00 0x00 0x00 0x00 0x00;
    (*88*) line 0x00 0x00 0x00 0x00 0x00 0x00 0x00 0x00;
    (*90*) line 0x00 0x00 0x00 0x00 0x00 0x00 0x00 0x00;
    (*98*) line 0x00 0x00 0x00 0x00 0x00 0x00 0x00 0x00;
    (*a0*) line 0x01 0x6e 0x1b 0x1c 0x1f 0x1d 0x17 0x2b;
    (*a8*) line 0x3c 0xd0 0x6a 0x6c 0x36 0x07 0xd1 0x37;
    (*b0*) line 0x38 0xd6 0x68 0x69 0x3e 0x54 0x1e 0x39;
    (*b8*) line 0x3f 0x67 0x6b 0x6d 0x4b 0x4c 0x4d 0x6f;
    (*c0*) line 0x60 0x7a 0x75 0x65 0x70 0xbc 0xba 0xbd;
    (*c8*) line 0x61 0x7b 0x76 0x71 0x62 0x7c 0x77 0x72;
    (*d0*) line 0xd7 0x7f 0x63 0x7d 0x78 0x66 0x73 0x5b;
    (*d8*) line 0xbb 0x64 0x7e 0x79 0x74 0x48 0xd9 0x2a;
    (*e0*) line 0x40 0x5a 0x55 0x45 0x50 0x9c 0x9a 0x4f;
    (*e8*) line 0x41 0x4a 0x56 0x51 0x42 0x5c 0x57 0x52;
    (*f0*) line 0xf7 0x5f 0x43 0x5d 0x58 0x46 0x53 0x9d;
    (*f8*) line 0x9b 0x44 0x5e 0x59 0x4e 0x49 0xf9 0x47 ].

(** EBCDIC to character-generator index. *)
Definition ebc2cg0 : list Z := concat [
    (*00*) line 0x00 0xdf 0xdf 0xdf 0xdf 0xdf 0xdf 0xdf;
    (*08*) line 0xdf 0xdf 0xdf 0xdf 0x02 0x03 0x00 0x00;
    (*10*) line 0xdf 0xdf 0xdf 0xdf 0xdf 0x04 0xdf 0xdf;
    (*18*) line 0xdf 0x05 0xdf 0xdf 0x9f 0xdf 0x9e 0xdf;
    (*20*) line 0xdf 0xdf 0xdf 0xdf 0xdf 0xdf 0xdf 0xdf;
    (*28*) line 0xdf 0xdf 0xdf 0xdf 0xdf 0xdf 0xdf 0xdf;
    (*30*) line 0xdf 0xdf 0xdf 0xdf 0xdf 0xdf 0xdf 0xdf;
    (*38*) line 0xdf 0xdf 0xdf 0xdf 0xdf 0xdf 0xdf 0xdf;
    (*40*) line 0x10 0x01 0x55 0x50 0x40 0x5a 0x45 0x9c;
    (*48*) line 0x4f 0x5f 0x1b 0x32 0x09 0x0d 0x35 0x16;
    (*50*) line 0x30 0x4a 0x56 0x51 0x41 0x5c 0x57 0x52;
    (*58*) line 0x42 0x2a 0x19 0x1a 0xbf 0x0c 0xbe 0x36;
    (*60*) line 0x31 0x14 0x75 0x70 0x60 0x7a 0x65 0xbc;
    (*68*) line 0xbd 0x7f 0x17 0x33 0x2e 0x2f 0x08 0x18;
    (*70*) line 0x9b 0x7b 0x76 0x71 0x61 0x7c 0x77 0x72;
    (*78*) line 0x62 0x3d 0x34 0x2c 0x2d 0x12 0x11 0x13;
    (*80*) line 0xbb 0x80 0x81 0x82 0x83 0x84 0x85 0x86;
    (*88*) line 0x87 0x88 0x6c 0x6d 0xf7 0x49 0xf9 0xd6;
    (*90*) line 0x38 0x89 0x8a 0x8b 0x8c 0x8d 0x8e 0x8f;
    (*98*) line 0x90 0x91 0x6a 0x6b 0x9a 0x3f 0xba 0x1f;
    (*a0*) line 0x54 0x3b 0x92 0x93 0x94 0x95 0x96 0x97;
    (*a8*) line 0x98 0x99 0x6e 0x6f 0xd7 0x48 0xd9 0xd1;
    (*b0*) line 0x3a 0x1c 0x1d 0x39 0xd0 0x2b 0x1e 0x4b;
    (*b8*) line 0x4c 0x4d 0x0a 0x0b 0x37 0x3c 0x3e 0x5b;
    (*c0*) line 0x0f 0xa0 0xa1 0xa2 0xa3 0xa4 0xa5 0xa6;
    (*c8*) line 0xa7 0xa8 0x07 0x58 0x53 0x43 0x5d 0x46;
    (*d0*) line 0x0e 0xa9 0xaa 0xab 0xac 0xad 0xae 0xaf;
    (*d8*) line 0xb0 0xb1 0x67 0x59 0x4e 0x44 0x5e 0x47;
    (*e0*) line 0x15 0x9d 0xb2 0xb3 0xb4 0xb5 0xb6 0xb7;
    (*e8*) line 0xb8 0xb9 0x68 0x78 0x73 0x63 0x7d 0x66;
    (*f0*) line 0x20 0x21 0x22 0x23 0x24 0x25 0x26 0x27;
    (*f8*) line 0x28 0x29 0x69 0x79 0x74 0x64 0x7e 0x06 ].

(** The ISO 8859-1 codes that [asc2ebc0] leaves unmapped (it sends them to
    0): the control codes 0x00-0x1f and 0x7f-0x9f. *)
Definition unmapped (a : Z) : bool := (a <? 0x20) || ((0x7f <=? a) && (a <=? 0x9f)).

End Tables.

(** ** The C library calls the code makes *)

Module Libc.

(** [isdigit] and [isspace] in the C locale. *)
Definition isdigit (c : ascii) : bool :=
  let n := Z.of_N (N_of_ascii c) in (48 <=? n) && (n <=? 57).

Definition isspace (c : ascii) : bool :=
  let n := Z.of_N (N_of_ascii c) in (n =? 32) || ((9 <=? n) && (n <=? 13)).

Definition digit_value (c : ascii) : Z := Z.of_N (N_of_ascii c) - 48.

(** [text + i]: the string from offset [i] on. *)
Fixpoint string_from (i : nat) (s : string) : string :=
  match i, s with
  | O, _ => s
  | S i', String _ s' => string_from i' s'
  | S _, EmptyString => EmptyString
  end.

(** [text[i]], the terminating NUL included. *)
Definition char_at (text : string) (i : nat) : ascii :=
  match string_from i text with
  | String c _ => c
  | EmptyString => zero
  end.

Definition is_nul (c : ascii) : bool := bool_decide (c = zero).

(** How many characters at the head of [s] satisfy [p]. *)
Fixpoint span (p : ascii -> bool) (s : string) : nat :=
  match s with
  | String c s' => if p c then S (span p s') else O
  | EmptyString => O
  end.

(** The decimal digits at the head of [s]: their value on top of [acc], and
    how many there are. *)
Fixpoint scan_digits (s : string) (acc : Z) : Z * nat :=
  match s with
  | String c s' =>
      if isdigit c
      then let '(v, k) := scan_digits s' (10 * acc + digit_value c) in (v, S k)
      else (acc, O)
  | EmptyString => (acc, O)
  end.

(** An optional sign: whether it is a minus, and its length. *)
Definition scan_sign (s : string) : bool * nat :=
  match s with
  | String "-" _ => (true, 1%nat)
  | String "+" _ => (false, 1%nat)
  | _ => (false, O)
  end.

(** [unsigned long] on an LP64 platform. *)
Definition ULONG_MAX : Z := 2 ^ 64 - 1.

(** [n = strtoul(text + t, &ptr, 10)], as the pair [(n, ptr)] with [ptr] an
    offset into [text]: white space is skipped, a sign is accepted, a value
    out of range is [ULONG_MAX], a minus sign negates in the unsigned type,
    and with no digits nothing is converted and [ptr] is [t]. *)
Definition strtoul (text : string) (t : nat) : Z * nat :=
  let s := string_from t text in
  let ws := span isspace s in
  let '(neg, sg) := scan_sign (string_from ws s) in
  let '(v, k) := scan_digits (string_from (ws + sg) s) 0 in
  match k with
  | O => (0, t)
  | S _ =>
      (if v >? ULONG_MAX then ULONG_MAX
       else if neg then (- v) mod (ULONG_MAX + 1) else v,
       (t + ws + sg + k)%nat)
  end.

(** [long] and [int] on an LP64 platform. *)
Definition LONG_MAX : Z := 2 ^ 63 - 1.
Definition LONG_MIN : Z := - 2 ^ 63.
Definition INT_MIN : Z := - 2 ^ 31.

(** [(int)x] for a [long x]: the low 32 bits, in two's complement. *)
Definition int_of_long (x : Z) : Z := (x - INT_MIN) mod 2 ^ 32 + INT_MIN.

(** [atoi(s)], that is [(int)strtol(s, NULL, 10)]: white space is skipped,
    a sign is accepted, nothing converted gives 0, a value outside [long]
    gives [LONG_MAX] or [LONG_MIN], and the [long] is converted to [int].
    (The C standard leaves [atoi] undefined outside [int]; this is what the
    GNU C library does.) *)
Definition atoi (s : string) : Z :=
  let ws := span isspace s in
  let '(neg, sg) := scan_sign (string_from ws s) in
  let '(v, _) := scan_digits (string_from (ws + sg) s) 0 in
  int_of_long
    (if neg then (if - v <? LONG_MIN then LONG_MIN else - v)
     else (if v >? LONG_MAX then LONG_MAX else v)).

End Libc.

(** ** The version check ([parse_version], [check_min_version]) *)

Module Version.
Import Libc.

Definition MAX_VERSION : Z := 999.

(** The three [int] out parameters of [parse_version]. *)
Record version := Ver { major : Z; minor : Z; iteration : Z }.

(** [parse_version(text, &major, &minor, &iteration)]: the returned [bool]
    and the out parameters as the call leaves them.  [t] and [ptr] are
    offsets into [text], so that [ptr == text] reads [ptr = 0]. *)
Definition parse_version (text : string) : bool * version :=
  let t := O in
  (* Parse the major number. *)
  let '(n, ptr) := strtoul text t in
  if (ptr =? t)%nat
     || (negb (bool_decide (char_at text ptr = "."%char)) && negb (is_nul (char_at text ptr)))
     || (n >? MAX_VERSION)
  then (false, Ver 0 0 0)
  else
    let major := n in
    if is_nul (char_at text ptr) then (true, Ver major 0 0)   (* Just a major number. *)
    else
      (* Parse the minor number. *)
      let t := (ptr + 1)%nat in
      let '(n, ptr) := strtoul text t in
      if (ptr =? O)%nat || (n >? MAX_VERSION)
      then (false, Ver major 0 0)
      else
        let minor := n in
        if is_nul (char_at text ptr) then (true, Ver major minor 0)
        else
          (* Parse the iteration. *)
          let t := ptr in
          let t := (t + span (fun c => negb (isdigit c) && negb (is_nul c))
                           (string_from t text))%nat in
          if is_nul (char_at text t) then (false, Ver major minor 0)
          else
            let '(n, ptr) := strtoul text t in
            if (ptr =? t)%nat || negb (is_nul (char_at text ptr)) || (n >? MAX_VERSION)
            then (false, Ver major minor 0)
            else (true, Ver major minor n).

(** The newline that ends each message. *)
Definition newline : string := String "010"%char "".

(** What [check_min_version] does to the process. *)
Inductive outcome :=
| Exit (status : Z) (stderr : string)
| Return (our : version).

(** The comparison of [check_min_version]: the build is refused when this
    holds. *)
Definition too_old (our min : version) : bool :=
  (major our <? major min)
  || (minor our <? minor min)
  || (iteration our <? iteration min).

(** [check_min_version(min_version)].  [build_rpq_version] is the version
    string of the build and [ResMinVersion] the resource name, both defined
    outside [b3270.c]; a NULL [min_version] is [None].  On return
    [our_major], [our_minor] and [our_iteration] hold the build's version. *)
Definition check_min_version (build_rpq_version ResMinVersion : string)
    (min_version : option string) : outcome :=
  (* Parse our version. *)
  let '(ok, our) := parse_version build_rpq_version in
  if negb ok
  then Exit 1 ("Internal error: Can't parse version: " +:+ build_rpq_version
                 +:+ newline)
  else
    match min_version with
    | None => Return our
    | Some min_version =>
        (* Parse the desired version. *)
        let '(ok, min) := parse_version min_version in
        if negb ok
        then Exit 1 ("Invalid " +:+ ResMinVersion +:+ ": " +:+ min_version
                       +:+ newline)
        else
          (* Compare. *)
          if too_old our min
          then Exit 1 ("Version " +:+ build_rpq_version +:+ " < requested "
                         +:+ min_version +:+ ", aborting" +:+ newline)
          else Return our
    end.

End Version.

(** ** The outbound event stream *)

Module Ui.

(** An event on the wire: a tag and the attributes that have a value, in
    order. *)
Record event := Event { tag : string; attrs : list (string * string) }.

(** Modelled from the spec: [ui_vleaf] ([ui_stream.c], not part of the
    sources at hand).  "Event: a tag (string) plus an ordered sequence of
    (key, optional-value) pairs; absent values are omitted entirely rather
    than serialized as empty."  A NULL value is [None]. *)
Definition ui_vleaf (tag : string) (args : list (string * option string)) : event :=
  Event tag (omap (fun kv => pair (fst kv) <$> snd kv) args).

(** The value of attribute [k] of an event, if it carries one. *)
Definition attr (k : string) (e : event) : option string :=
  snd <$> List.find (fun kv => String.eqb (fst kv) k) (attrs e).

(** [lazyaf("%d", n)] *)
Definition lazyaf_d (n : Z) : string := pretty n.

End Ui.

(** ** The connection and statistics tracker ([stats_poll], [b3270_connect]) *)

Module Tracker.
Import Ui.

(** [enum cstate] is declared outside [b3270.c]; its values are read off the
    [cstate_name] table, in the table's order ([main] checks that the table
    has [NUM_CSTATE] entries, and the code indexes it with [(int)cstate]). *)
Inductive cstate :=
| NOT_CONNECTED | SSL_PASS | RESOLVING | PENDING | NEGOTIATING
| CONNECTED_INITIAL | CONNECTED_NVT | CONNECTED_NVT_CHARMODE | CONNECTED_3270
| CONNECTED_UNBOUND | CONNECTED_E_NVT | CONNECTED_SSCP | CONNECTED_TN3270E.

#[global] Instance cstate_eq_dec : EqDecision cstate.
Proof. solve_decision. Defined.

Definition cstate_name (c : cstate) : string :=
  match c with
  | NOT_CONNECTED => "not-connected"
  | SSL_PASS => "ssl-password-pending"
  | RESOLVING => "resolving"
  | PENDING => "pending"
  | NEGOTIATING => "negotiating"
  | CONNECTED_INITIAL => "connected-initial"
  | CONNECTED_NVT => "connected-nvt"
  | CONNECTED_NVT_CHARMODE => "connected-nvt-charmode"
  | CONNECTED_3270 => "connected-3270"
  | CONNECTED_UNBOUND => "connected-unbound"
  | CONNECTED_E_NVT => "connected-e-nvt"
  | CONNECTED_SSCP => "connected-sscp"
  | CONNECTED_TN3270E => "connected-tn3270e"
  end.

(** The globals of the engine that the tracker reads. *)
Record engine := Engine {
  cstate_of : cstate;              (* cstate *)
  current_host : option string;    (* NULL is None *)
  ns_brcvd : Z; ns_rrcvd : Z; ns_bsent : Z; ns_rsent : Z
}.

Definition STATS_POLL : Z := 2 * 1000.
Definition NULL_IOID : Z := 0.

(** What the tracker does to the rest of the program, in order. *)
Inductive effect :=
| Leaf (e : event)                    (* ui_vleaf *)
| AddTimeOut (ms : Z) (id : Z)        (* AddTimeOut(ms, stats_poll) returned id *)
| RemoveTimeOut (id : Z)
| CtlrErase (alt : bool).             (* ctlr_erase *)

(** The file's static variables, with the effects so far and the
    identifier [next_ioid] that [AddTimeOut] hands out next (see [arm]). *)
Record tracker := MkTracker {
  brcvd : Z; rrcvd : Z; bsent : Z; rsent : Z;
  stats_ioid : Z;
  old_cstate : cstate;
  next_ioid : Z;
  effects : list effect
}.

Definition initial : tracker :=
  MkTracker 0 0 0 0 NULL_IOID NOT_CONNECTED 1 [].

Definition emit (f : effect) (s : tracker) : tracker :=
  MkTracker (brcvd s) (rrcvd s) (bsent s) (rsent s) (stats_ioid s) (old_cstate s)
           (next_ioid s) (effects s ++ [f]).

Definition stats_event (b r bs rs : Z) : event :=
  ui_vleaf "stats"
    [("bytes-received", Some (lazyaf_d b));
     ("records-received", Some (lazyaf_d r));
     ("bytes-sent", Some (lazyaf_d bs));
     ("records-sent", Some (lazyaf_d rs))].

Definition dump_stats (s : tracker) : tracker :=
  emit (Leaf (stats_event (brcvd s) (rrcvd s) (bsent s) (rsent s))) s.

(** The test [brcvd != ns_brcvd || rrcvd != ns_rrcvd || ...]. *)
Definition stats_changed (e : engine) (s : tracker) : bool :=
  negb (brcvd s =? ns_brcvd e) || negb (rrcvd s =? ns_rrcvd e)
  || negb (bsent s =? ns_bsent e) || negb (rsent s =? ns_rsent e).

(** [brcvd = ns_brcvd; rrcvd = ns_rrcvd; bsent = ns_bsent; rsent = ns_rsent] *)
Definition take_snapshot (e : engine) (s : tracker) : tracker :=
  MkTracker (ns_brcvd e) (ns_rrcvd e) (ns_bsent e) (ns_rsent e) (stats_ioid s)
           (old_cstate s) (next_ioid s) (effects s).

Definition set_stats_ioid (id : Z) (s : tracker) : tracker :=
  MkTracker (brcvd s) (rrcvd s) (bsent s) (rsent s) id (old_cstate s)
           (next_ioid s) (effects s).

(** Modelled from the spec: [AddTimeOut] (the timer table, not part of
    the sources at hand).  The tick "is rearmed after each firing" and is
    "canceled on disconnect": a call registers a timer and returns its
    identifier, which is never [NULL_IOID]; identifiers are handed out in
    increasing order from 1.  [arm] is
    [stats_ioid = AddTimeOut(STATS_POLL, stats_poll)]. *)
Definition arm (s : tracker) : tracker :=
  let id := next_ioid s in
  emit (AddTimeOut STATS_POLL id)
    (MkTracker (brcvd s) (rrcvd s) (bsent s) (rsent s) id (old_cstate s)
              (id + 1) (effects s)).

Definition stats_poll (e : engine) (s : tracker) : tracker :=
  let s := if stats_changed e s then dump_stats (take_snapshot e s) else s in
  arm s.

Definition set_snapshot (b r bs rs : Z) (s : tracker) : tracker :=
  MkTracker b r bs rs (stats_ioid s) (old_cstate s) (next_ioid s) (effects s).

Definition set_old_cstate (c : cstate) (s : tracker) : tracker :=
  MkTracker (brcvd s) (rrcvd s) (bsent s) (rsent s) (stats_ioid s) c
           (next_ioid s) (effects s).

(** The three blocks of [b3270_connect], run when [cstate] has changed. *)

(** "If just disconnected, dump final stats." *)
Definition final_stats (e : engine) (s : tracker) : tracker :=
  if bool_decide (cstate_of e = NOT_CONNECTED) && negb (stats_ioid s =? NULL_IOID)
  then
    let s := emit (RemoveTimeOut (stats_ioid s)) s in
    let s := set_stats_ioid NULL_IOID s in
    if stats_changed e s then dump_stats (take_snapshot e s) else s
  else s.

(** "Tell the GUI about the new state." *)
Definition tell_gui (e : engine) (s : tracker) : tracker :=
  if bool_decide (cstate_of e = NOT_CONNECTED)
  then emit (Leaf (ui_vleaf "connection"
                     [("state", Some (cstate_name (cstate_of e)))])) s
  else
    let s := emit (Leaf (ui_vleaf "connection"
                           [("state", Some (cstate_name (cstate_of e)));
                            ("host", current_host e)])) s in
    (* Clear the screen. *)
    if bool_decide (old_cstate s = NOT_CONNECTED)
    then emit (CtlrErase true) s
    else s.

(** "If just connected, dump initial stats." *)
Definition initial_stats (e : engine) (s : tracker) : tracker :=
  if negb (bool_decide (cstate_of e = NOT_CONNECTED)) && (stats_ioid s =? NULL_IOID)
  then arm (dump_stats (set_snapshot 0 0 0 0 s))
  else s.

Definition b3270_connect (e : engine) (s : tracker) : tracker :=
  if bool_decide (cstate_of e = old_cstate s) then s
  else set_old_cstate (cstate_of e) (initial_stats e (tell_gui e (final_stats e s))).

(** What the event loop delivers to the tracker: a state change of the
    engine, or the expiry of the statistics timer. *)
Inductive input :=
| Notify (e : engine)
| Tick (e : engine).

Definition step (s : tracker) (i : input) : tracker :=
  match i with
  | Notify e => b3270_connect e s
  | Tick e => stats_poll e s
  end.

Definition run (s : tracker) (l : list input) : tracker := foldl step s l.

(** The events with tag [t] among the effects [fs]. *)
Definition events_tagged (t : string) (fs : list effect) : list event :=
  omap (fun f => match f with
                 | Leaf e => if bool_decide (tag e = t) then Some e else None
                 | _ => None
                 end) fs.

(** The effects of a call: what it appended. *)
Definition emitted (before after : tracker) : list effect :=
  drop (length (effects before)) (effects after).

(** How many of the notifications in [l] carry a state other than the one
    observed before them, [prev] being the state observed before [l]. *)
Fixpoint state_changes (prev : cstate) (l : list input) : nat :=
  match l with
  | [] => O
  | Notify e :: l' =>
      ((if bool_decide (cstate_of e = prev) then 0 else 1)
       + state_changes (cstate_of e) l')%nat
  | Tick _ :: l' => state_changes prev l'
  end.

(** The [connection] event of a notification. *)
Definition connection_event (e : engine) : event :=
  ui_vleaf "connection"
    (("state", Some (cstate_name (cstate_of e)))
     :: if bool_decide (cstate_of e = NOT_CONNECTED) then []
        else [("host", current_host e)]).

(** The [stats] event with the engine's current counters. *)
Definition current_stats_event (e : engine) : event :=
  stats_event (ns_brcvd e) (ns_rrcvd e) (ns_bsent e) (ns_rsent e).

(** The timer is pending exactly while a connection has been observed, and
    the identifiers still to hand out are not [NULL_IOID]. *)
Definition well_armed (s : tracker) : Prop :=
  (stats_ioid s = NULL_IOID <-> old_cstate s = NOT_CONNECTED)
  /\ NULL_IOID < next_ioid s.

(** What a block of [b3270_connect] leaves alone: a block only appends
    effects. *)
Record extends (s s' : tracker) (fs : list effect) : Prop := {
  ext_effects : effects s' = effects s ++ fs;
  ext_old_cstate : old_cstate s' = old_cstate s
}.

End Tracker.

(** ** The toggle handler ([b3270_toggle]) *)

Module Toggles.
Import Ui.

(** The toggles [b3270.c] registers [b3270_toggle] for (its [toggles]
    table); [toggle_index_t] itself is declared outside the file. *)
Inductive toggle_index_t :=
| MONOCASE | ALT_CURSOR | CURSOR_BLINK | TRACING | VISIBLE_CONTROL | CROSSHAIR
| OVERLAY_PASTE.

#[global] Instance toggle_index_eq_dec : EqDecision toggle_index_t.
Proof. solve_decision. Defined.

(** An entry of the [toggle_names] table. *)
Record toggle_name_t := ToggleName { name : string; index : toggle_index_t }.

(** What the handler reads: the [toggle_names] table up to its NULL-named
    terminator, the value [toggled(ix)] of each toggle, and [tracefile_name]
    (NULL is [None]).  All three live outside [b3270.c]. *)
Record toggle_env := ToggleEnv {
  toggle_names : list toggle_name_t;
  toggled : toggle_index_t -> bool;
  tracefile_name : option string
}.

(** The search loop: the first entry of the table whose index is [ix], or
    [None] when the loop stops at the terminator. *)
Fixpoint lookup_name (names : list toggle_name_t) (ix : toggle_index_t)
    : option toggle_name_t :=
  match names with
  | [] => None
  | n :: names' => if bool_decide (index n = ix) then Some n else lookup_name names' ix
  end.

(** [b3270_toggle(ix, tt)]: the event stream [out] after the call.  The
    handler does not look at [tt], whose type is declared outside the file. *)
Definition b3270_toggle {toggle_type : Type} (env : toggle_env) (ix : toggle_index_t)
    (tt : toggle_type) (out : list event) : list event :=
  match lookup_name (toggle_names env) ix with
  | None => out
  | Some n =>
      out ++
      [ui_vleaf "toggle"
         [("name", Some (name n));
          ("value", Some (if toggled env ix then "true" else "false"));
          ("file", if bool_decide (ix = TRACING) && toggled env ix
                      && bool_decide (tracefile_name env <> None)
                   then tracefile_name env else None)]]
  end.

(** A table with two entries, tracing on, and a trace file. *)
Definition demo_toggle_env : toggle_env :=
  ToggleEnv [ToggleName "monoCase" MONOCASE; ToggleName "trace" TRACING]
            (fun ix => bool_decide (ix = TRACING))
            (Some "/tmp/x3trc.log").

End Toggles.

(** ** The screen buffer and the actions ([Model_action], [ClearRegion_action]) *)

Module Actions.
Import Libc.

(** Modelled from the spec: the DBCS role of a cell ([enum dbcs_state],
    declared outside the sources at hand).  "DBCS role ∈ {none, single-byte,
    double-left, double-right}"; [DBCS_OTHER] stands for the values that the
    [default] arm of the switch in [ClearRegion_action] receives. *)
Inductive dbcs_state := DBCS_NONE | DBCS_SB | DBCS_LEFT | DBCS_RIGHT | DBCS_OTHER.

#[global] Instance dbcs_state_eq_dec : EqDecision dbcs_state.
Proof. solve_decision. Defined.

(** A cell of [ea_buf]: the fields the actions use, and the DBCS role that
    [ctlr_dbcs_state] reports. *)
Record cell := Cell {
  cc : Z;          (* character code *)
  cs : Z;          (* character set *)
  fa : Z;          (* field attribute, 0 in a data cell *)
  db : dbcs_state
}.

#[global] Instance cell_eq_dec : EqDecision cell.
Proof. solve_decision. Defined.

(** The globals the actions read and write, with what they report: the
    error pop-ups, the action output, and the set [mdt] of buffer addresses
    marked modified (see [mdt_set]). *)
Record emu := Emu {
  ROWS : Z; COLS : Z;
  maxROWS : Z; maxCOLS : Z;
  model_num : Z;
  ov_rows : Z; ov_cols : Z;
  m3279 : bool;                 (* appres.m3279 *)
  ea_buf : list cell;
  mdt : gset Z;
  popups : list string;         (* popup_an_error, oldest first *)
  outputs : list string         (* action_output, oldest first *)
}.

Definition with_buf (b : list cell) (s : emu) : emu :=
  Emu (ROWS s) (COLS s) (maxROWS s) (maxCOLS s) (model_num s) (ov_rows s)
      (ov_cols s) (m3279 s) b (mdt s) (popups s) (outputs s).

(** Modelled from the spec: [popup_an_error] and [action_output] (not part
    of the sources at hand) report a diagnostic, respectively the textual
    output of the action; they change nothing else. *)
Definition popup_an_error (msg : string) (s : emu) : emu :=
  Emu (ROWS s) (COLS s) (maxROWS s) (maxCOLS s) (model_num s) (ov_rows s)
      (ov_cols s) (m3279 s) (ea_buf s) (mdt s) (popups s ++ [msg]) (outputs s).

Definition action_output (msg : string) (s : emu) : emu :=
  Emu (ROWS s) (COLS s) (maxROWS s) (maxCOLS s) (model_num s) (ov_rows s)
      (ov_cols s) (m3279 s) (ea_buf s) (mdt s) (popups s) (outputs s ++ [msg]).

(** Modelled from the spec: [check_argc] (not part of the sources at hand).
    "Validates argc against the action's [min,max]; fails with
    ArgumentCountError otherwise, producing a diagnostic rather than
    crashing."  The result is negative on a mismatch. *)
Definition check_argc (aname : string) (argc lo hi : Z) (s : emu) : Z * emu :=
  if (lo <=? argc) && (argc <=? hi) then (0, s)
  else (-1, popup_an_error (aname +:+ ": wrong number of arguments") s).

(** *** Model *)

(** [strchr(set, c) != NULL] for a [c] that is not NUL. *)
Fixpoint strchr (set : string) (c : ascii) : bool :=
  match set with
  | String c' set' => bool_decide (c' = c) || strchr set' c
  | EmptyString => false
  end.

Definition UINT_MAX : Z := 2 ^ 32 - 1.

(** [(int)u] for an [unsigned u]. *)
Definition int_of_unsigned (u : Z) : Z :=
  if u >? 2 ^ 31 - 1 then u - (UINT_MAX + 1) else u.

(** [sscanf(s, "%u%c%u%c", &ovr, &x, &ovc, &junk)]: the value returned
    (the number of items stored, or EOF, -1, when the input ends before the
    first item), with [ovr], [x] and [ovc].  An item that was not stored
    reads as 0 here; the code looks at none of them unless the count is 3. *)
Definition sscanf_ucuc (s : string) : Z * (Z * ascii * Z) :=
  let '(n1, p1) := strtoul s O in
  if (p1 =? O)%nat
  then (if is_nul (char_at s (span isspace s)) then -1 else 0, (0, zero, 0))
  else
    let ovr := n1 mod (UINT_MAX + 1) in
    let x := char_at s p1 in
    if is_nul x then (1, (ovr, zero, 0))
    else
      let '(n2, p2) := strtoul s (p1 + 1) in
      if (p2 =? p1 + 1)%nat then (2, (ovr, x, 0))
      else
        let ovc := n2 mod (UINT_MAX + 1) in
        if is_nul (char_at s p2) then (3, (ovr, x, ovc)) else (4, (ovr, x, ovc)).

Section Model.

(** The screen-geometry procedures that [Model_action] calls; they live
    outside [b3270.c] and are taken as they are.  [set_rows_cols] takes
    three [int]s: the call converts the unsigned [ovc] and [ovr]. *)
Variable set_rows_cols : Z -> Z -> Z -> emu -> emu.
Variable ctlr_reinit : Z -> emu -> emu.
Variable MODEL_CHANGE : Z.
Variable screen_init : emu -> emu.
Variable ctlr_erase : bool -> emu -> emu.

Definition set_ROWS_COLS (r c : Z) (s : emu) : emu :=
  Emu r c (maxROWS s) (maxCOLS s) (model_num s) (ov_rows s) (ov_cols s)
      (m3279 s) (ea_buf s) (mdt s) (popups s) (outputs s).

Definition set_m3279 (b : bool) (s : emu) : emu :=
  Emu (ROWS s) (COLS s) (maxROWS s) (maxCOLS s) (model_num s) (ov_rows s)
      (ov_cols s) b (ea_buf s) (mdt s) (popups s) (outputs s).

(** [Model_action(ia, argc, argv)] with [argc = length argv];
    [PCONNECTED] is the value of that macro (over [cstate], declared outside
    the file) when the action runs.  [action_debug] only writes to the
    trace file and is left out. *)
Definition Model_action (PCONNECTED : bool) (argv : list string) (s : emu)
    : bool * emu :=
  let argc := Z.of_nat (length argv) in
  let '(rc, s) := check_argc "Model" argc 0 2 s in
  if rc <? 0 then (false, s)
  else
    match argv with
    | [] =>
        (* With no arguments, outputs the current model. *)
        let model := "327" +:+ (if m3279 s then "9" else "8") +:+ "-"
                           +:+ pretty (model_num s) in
        let model :=
          if negb (ov_rows s =? 0) || negb (ov_cols s =? 0)
          then model +:+ "," +:+ pretty (ov_rows s) +:+ "x" +:+ pretty (ov_cols s)
          else model in
        (true, action_output model s)
    | argv0 :: rest =>
        if PCONNECTED
        then (false, popup_an_error "Model: Cannot change model while connected" s)
        else
          (* One argument changes the model number and clears oversize.
             Two changes both. *)
          let color := char_at argv0 3 in
          let digit := char_at argv0 5 in
          if negb (String.length argv0 =? 6)%nat
             || negb (String.eqb (substring 0 3 argv0) "327")
             || negb (strchr "89" color)
             || negb (bool_decide (char_at argv0 4 = "-"%char))
             || negb (strchr "2345" digit)
          then (false, popup_an_error "Model: First parameter must be 327[89]-[2345]" s)
          else
            let scanned :=
              match rest with
              | [] => Some (0, 0)
              | argv1 :: _ =>
                  let '(count, (ovr, x, ovc)) := sscanf_ucuc argv1 in
                  if negb (count =? 3) || negb (bool_decide (x = "x"%char))
                  then None
                  else Some (ovr, ovc)
              end in
            match scanned with
            | None => (false, popup_an_error "Mode: Second parameter must be <rows>x<cols>" s)
            | Some (ovr, ovc) =>
                (* Change the screen size and emulation mode. *)
                let model_number := digit_value digit in
                let s := set_rows_cols model_number (int_of_unsigned ovc)
                                       (int_of_unsigned ovr) s in
                let s := set_ROWS_COLS (maxROWS s) (maxCOLS s) s in
                let s := ctlr_reinit MODEL_CHANGE s in
                let s := set_m3279 (bool_decide (color = "9"%char)) s in
                (* Reset the screen state. *)
                let s := screen_init s in
                let s := ctlr_erase true s in
                (bool_decide (model_num s = model_number)
                 && bool_decide (ov_rows s = int_of_unsigned ovr)
                 && bool_decide (ov_cols s = int_of_unsigned ovc), s)
            end
    end.

End Model.

(** *** ClearRegion *)

(** [ea_buf[baddr]]: [None] outside the buffer. *)
Definition ea_get (s : emu) (baddr : Z) : option cell :=
  if baddr <? 0 then None else ea_buf s !! Z.to_nat baddr.

(** [ea_buf[baddr] = c], for a [baddr] inside the buffer. *)
Definition ea_set (baddr : Z) (c : cell) (s : emu) : emu :=
  with_buf (<[Z.to_nat baddr := c]> (ea_buf s)) s.

(** Modelled from the spec: the address macros of [ctlrc.h] and the
    constants of [3270ds.h] (not part of the sources at hand).  "Cells are
    addressed by a linear buffer index computed from (row, column) and the
    configured width; index arithmetic wraps within the buffer."  The
    character codes are the EBCDIC ones: space is [asc2ebc0[0x20]], shift-out
    and shift-in are 0x0e and 0x0f; the protected bit of a field attribute
    is 0x20. *)
Definition ROWCOL_TO_BA (s : emu) (r c : Z) : Z := r * COLS s + c.

Definition INC_BA (s : emu) (baddr : Z) : Z := (baddr + 1) mod (COLS s * ROWS s).

Definition DEC_BA (s : emu) (baddr : Z) : Z :=
  if baddr =? 0 then COLS s * ROWS s - 1 else baddr - 1.

Definition EBC_so : Z := 0x0e.
Definition EBC_si : Z := 0x0f.
Definition EBC_space : Z := 0x40.
Definition FA_PROTECT : Z := 0x20.

Definition FA_IS_PROTECTED (a : Z) : bool := negb (Z.land a FA_PROTECT =? 0).

(** [ea_buf[baddr].fa], 0 outside the buffer. *)
Definition fa_at (s : emu) (baddr : Z) : Z := default 0 (fa <$> ea_get s baddr).

(** The attribute of the nearest field-attribute cell among the [n] cells
    at and before [baddr], 0 when there is none. *)
Fixpoint scan_fa (s : emu) (n : nat) (baddr : Z) : Z :=
  match n with
  | O => 0
  | S n' => if fa_at s baddr =? 0 then scan_fa s n' (DEC_BA s baddr) else fa_at s baddr
  end.

(** Modelled from the spec: [get_field_attribute] ([ctlr.c], not part of
    the sources at hand).  A field attribute is "a buffer cell marking the
    start of a protected or unprotected input region": the attribute that
    governs [baddr] is that of the nearest field-attribute cell at or before
    it, the search wrapping at the start of the buffer; with no such cell in
    the buffer the result is 0, unprotected. *)
Definition get_field_attribute (s : emu) (baddr : Z) : Z :=
  scan_fa s (length (ea_buf s)) baddr.

(** Modelled from the spec: [ctlr_dbcs_state] (not part of the sources at
    hand) reports the DBCS role the cell carries. *)
Definition ctlr_dbcs_state (s : emu) (baddr : Z) : option dbcs_state :=
  db <$> ea_get s baddr.

(** Modelled from the spec: [ctlr_add] ([ctlr.c], not part of the sources
    at hand) stores character code [c] with character set [cs'] in the cell
    at [baddr] ("replace the character with a space in the cell's current
    display class"). *)
Definition ctlr_add (baddr : Z) (c : Z) (cs' : Z) (s : emu) : option emu :=
  old ← ea_get s baddr;
  Some (ea_set baddr (Cell c cs' (fa old) (db old)) s).

(** Modelled from the spec: [mdt_set] ([ctlr.c], not part of the sources
    at hand) marks the cell at [baddr] modified ("Every cleared cell is
    marked modified (dirty) for redraw/transmission purposes"). *)
Definition mdt_set (baddr : Z) (s : emu) : emu :=
  Emu (ROWS s) (COLS s) (maxROWS s) (maxCOLS s) (model_num s) (ov_rows s)
      (ov_cols s) (m3279 s) (ea_buf s) ({[baddr]} ∪ mdt s) (popups s) (outputs s).

(** The test that makes the loop [continue]. *)
Definition skipped (s : emu) (baddr : Z) : option bool :=
  c ← ea_get s baddr;
  Some (negb (fa c =? 0)
        || FA_IS_PROTECTED (get_field_attribute s baddr)
        || (cc c =? EBC_so)
        || (cc c =? EBC_si)).

(** [ea_buf[baddr].cs] *)
Definition cs_at (s : emu) (baddr : Z) : option Z := cs <$> ea_get s baddr.

(** The body of the inner loop, for the cell at [baddr]. *)
Definition clear_cell (baddr : Z) (s : emu) : option emu :=
  skip ← skipped s baddr;
  if skip : bool then Some s
  else
    role ← ctlr_dbcs_state s baddr;
    s ← match role with
        | DBCS_NONE | DBCS_SB =>
            k ← cs_at s baddr; ctlr_add baddr EBC_space k s
        | DBCS_LEFT =>
            k ← cs_at s baddr;
            s ← ctlr_add baddr EBC_space k s;
            let ba2 := INC_BA s baddr in
            k ← cs_at s baddr;
            ctlr_add ba2 EBC_space k s
        | DBCS_RIGHT =>
            let ba2 := DEC_BA s baddr in
            k ← cs_at s baddr;
            s ← ctlr_add ba2 EBC_space k s;
            k ← cs_at s baddr;
            ctlr_add baddr EBC_space k s
        | DBCS_OTHER => Some s
        end;
    Some (mdt_set baddr s).

(** [for (x = first; x < first + count; x++) body], over the values of [x]. *)
Fixpoint for_each {A S : Type} (l : list A) (body : A -> S -> option S) (s : S)
    : option S :=
  match l with
  | [] => Some s
  | x :: l' => s' ← body x s; for_each l' body s'
  end.

(** The two nested loops of [ClearRegion_action]. *)
Definition clear_region (row column rows columns : Z) (s : emu) : option emu :=
  for_each (seqZ (row - 1) rows)
    (fun r => for_each (seqZ (column - 1) columns)
                (fun c s => clear_cell (ROWCOL_TO_BA s r c) s))
    s.

(** [ClearRegion_action(ia, argc, argv)] with [argc = length argv]: the
    returned [bool] and the state after the call, or [None] when the call
    reads or writes outside [ea_buf].  [action_debug] only writes to the
    trace file and is left out, and so is the assignment to [baddr] before
    the loops, which the loops overwrite.  The [int] arithmetic is exact:
    where it would overflow, C leaves the behaviour undefined. *)
Definition ClearRegion_action (argv : list string) (s : emu) : option (bool * emu) :=
  let '(rc, s) := check_argc "ClearRegion" (Z.of_nat (length argv)) 4 4 s in
  if rc <? 0 then Some (false, s)
  else
    let row := atoi (nth 0 argv "") in
    let column := atoi (nth 1 argv "") in
    let rows := atoi (nth 2 argv "") in
    let columns := atoi (nth 3 argv "") in
    let s :=
      if (row <=? 0) || (row >? ROWS s) || (column <=? 0) || (column >? COLS s)
      then popup_an_error "ClearRegion: invalid coordinates" s
      else s in
    let s :=
      if (rows <? 0) || (columns <? 0)
         || (row - 1 + rows >? ROWS s) || (column - 1 + columns >? COLS s)
      then popup_an_error "ClearRegion: invalid size" s
      else s in
    if (rows =? 0) || (columns =? 0) then Some (true, s)
    else
      s ← clear_region row column rows columns s;
      Some (true, s).

(** The buffer addresses the loops visit, in order. *)
Definition region (s : emu) (row column rows columns : Z) : list Z :=
  r ← seqZ (row - 1) rows; ROWCOL_TO_BA s r <$> seqZ (column - 1) columns.





(** *** What the proofs about [ClearRegion] speak of *)









(** A blank screen of [r] rows and [c] columns: every cell a null with no
    attribute, nothing marked, nothing reported. *)
Definition blank_screen (r c : Z) : emu :=
  Emu r c r c 2 0 0 false (replicate (Z.to_nat (r * c)) (Cell 0 0 0 DBCS_NONE)) ∅ [] [].


End Actions.

(** ** The security tracker ([b3270_secure]) *)

Module Secure.
Import Ui.

(** What the handler asks the network layer: [net_secure_connection()],
    [net_secure_unverified()], [net_session_info()] and
    [net_server_cert_info()] (NULL is [None]), as they answer during one
    call. *)
Record net := Net {
  net_secure_connection : bool;
  net_secure_unverified : bool;
  net_session_info : option string;
  net_server_cert_info : option string
}.

(** The static [is_secure] and the event stream. *)
Record secure_st := SecureSt { is_secure : bool; ssl_out : list event }.

Definition secure_initial : secure_st := SecureSt false [].

Definition ssl_event (n : net) : event :=
  ui_vleaf "ssl"
    [("secure", Some (if net_secure_connection n then "true" else "false"));
     ("verified",
      if net_secure_connection n
      then Some (if net_secure_unverified n then "false" else "true")
      else None);
     ("session", net_session_info n);
     ("host-cert", net_server_cert_info n)].

Definition b3270_secure (n : net) (s : secure_st) : secure_st :=
  if bool_decide (net_secure_connection n = is_secure s) then s
  else SecureSt (net_secure_connection n) (ssl_out s ++ [ssl_event n]).

(** The handler run over a sequence of notifications. *)
Definition secure_run (s : secure_st) (l : list net) : secure_st :=
  foldl (fun s n => b3270_secure n s) s l.

(** [true; false; true; ...]: [k] values that alternate, the first being
    [b]. *)
Fixpoint alternating (b : bool) (k : nat) : list bool :=
  match k with
  | O => []
  | S k' => b :: alternating (negb b) k'
  end.

(** The [secure] attribute of an event, as a [bool]. *)
Definition secure_of (e : event) : option bool :=
  match attr "secure" e with
  | Some v => Some (String.eqb v "true")
  | None => None
  end.

End Secure.

(** ** The xterm text escape ([xterm_text_gui]) *)

Module Xterm.
Import Ui.

Definition xterm_text_gui (code : Z) (text : string) (out : list event) : list event :=
  let out :=
    if (code =? 0) || (code =? 1)
    then out ++ [ui_vleaf "icon-name" [("text", Some text)]]
    else out in
  let out :=
    if (code =? 0) || (code =? 2)
    then out ++ [ui_vleaf "window-title" [("text", Some text)]]
    else out in
  if code =? 50
  then out ++ [ui_vleaf "font" [("text", Some text)]]
  else out.

End Xterm.

(** ** The Trace action ([Trace_action]) *)

Module TraceAction.

(** [tolower] in the C locale, and [strcasecmp(a, b) == 0]. *)
Definition tolower (c : ascii) : ascii :=
  let n := N_of_ascii c in
  if (65 <=? n)%N && (n <=? 90)%N then ascii_of_N (n + 32) else c.

Fixpoint strcasecmp_eq (a b : string) : bool :=
  match a, b with
  | EmptyString, EmptyString => true
  | String x a', String y b' => bool_decide (tolower x = tolower y) && strcasecmp_eq a' b'
  | _, _ => false
  end.

(** What the action reads and writes: [toggled(TRACING)], [tracefile_name]
    (NULL is [None]), the error pop-ups, and the action output.  An output
    is the literal part of the format with its [%s] argument, when it has
    one. *)
Record trace_st := TraceSt {
  tracing : bool;
  tracefile_name : option string;
  t_popups : list string;
  t_outputs : list (string * option (option string))
}.

Definition t_popup (msg : string) (s : trace_st) : trace_st :=
  TraceSt (tracing s) (tracefile_name s) (t_popups s ++ [msg]) (t_outputs s).

(** [action_output("Off")] and [action_output(fmt "%s", arg)]. *)
Definition t_output (fmt : string) (s : trace_st) : trace_st :=
  TraceSt (tracing s) (tracefile_name s) (t_popups s) (t_outputs s ++ [(fmt, None)]).

Definition t_output_s (fmt : string) (arg : option string) (s : trace_st) : trace_st :=
  TraceSt (tracing s) (tracefile_name s) (t_popups s) (t_outputs s ++ [(fmt, Some arg)]).

(** Modelled from the spec: [check_argc] (not part of the sources at hand),
    as for the other actions: a count outside [lo, hi] is reported and the
    result is negative. *)
Definition check_argc (aname : string) (argc lo hi : Z) (s : trace_st) : Z * trace_st :=
  if (lo <=? argc) && (argc <=? hi) then (0, s)
  else (-1, t_popup (aname +:+ ": wrong number of arguments") s).

Section Trace.

(** [do_toggle(TRACING)] and [trace_set_trace_file] live outside [b3270.c]
    and are taken as they are. *)
Variable do_toggle_TRACING : trace_st -> trace_st.
Variable trace_set_trace_file : string -> trace_st -> trace_st.

(** [Trace_action(ia, argc, argv)] with [argc = length argv].
    [action_debug] only writes to the trace file and is left out. *)
Definition Trace_action (argv : list string) (s : trace_st) : bool * trace_st :=
  let argc := Z.of_nat (length argv) in
  let '(rc, s) := check_argc "Trace" argc 0 2 s in
  if rc <? 0 then (false, s)
  else
    match argv with
    | [] =>
        if tracing s && bool_decide (tracefile_name s <> None)
        then (true, t_output_s "On," (tracefile_name s) s)
        else (true, t_output "Off" s)
    | argv0 :: rest =>
        if strcasecmp_eq argv0 "Off"
        then
          (* Turn tracing off. *)
          if 1 <? argc
          then (false, t_popup "Trace: Too many arguments for 'Off'" s)
          else
            if tracing s
            then
              let s := do_toggle_TRACING s in
              (true, t_output_s "Off," (tracefile_name s) s)
            else (true, s)
        else if negb (strcasecmp_eq argv0 "On")
        then (false, t_popup "Trace: Parameter must be On or Off" s)
        else
          (* Turn tracing on. *)
          let checked :=
            match rest with
            | [] => Some s
            | argv1 :: _ =>
                if tracing s then None else Some (trace_set_trace_file argv1 s)
            end in
          match checked with
          | None =>
              (false, t_popup ("Trace: cannot specify filename when tracing "
                                 +:+ "is already on") s)
          | Some s =>
              if negb (tracing s)
              then
                let s := do_toggle_TRACING s in
                (true, t_output_s "On," (tracefile_name s) s)
              else (true, s)
          end
    end.

End Trace.

End TraceAction.

(** ** What the further properties speak of *)

Module More.
Import Ui Version Tracker Actions.

(** The version [main] announces in its [hello] event:
    [lazyaf("%d.%d.%d", our_major, our_minor, our_iteration)]. *)
Definition hello_version (v : version) : string :=
  pretty (major v) +:+ "." +:+ pretty (minor v) +:+ "." +:+ pretty (iteration v).

(** The three numbers are within 0..999. *)
Definition in_range (v : version) : Prop :=
  0 <= major v <= MAX_VERSION /\ 0 <= minor v <= MAX_VERSION
  /\ 0 <= iteration v <= MAX_VERSION.

(** Modelled from the spec: the timer table behind [AddTimeOut] and
    [RemoveTimeOut] (not part of the sources at hand).  The tick "is
    rearmed after each firing" and is "canceled on disconnect": a timer is
    pending from the [AddTimeOut] that returned its identifier until it
    fires or is removed.  [timers tbl fs] is the table [tbl] of pending
    identifiers after the effects [fs]. *)
Definition timer_effect (tbl : list Z) (f : effect) : list Z :=
  match f with
  | AddTimeOut _ id => tbl ++ [id]
  | RemoveTimeOut id => List.filter (fun x => negb (x =? id)) tbl
  | _ => tbl
  end.

Definition timers (tbl : list Z) (fs : list effect) : list Z :=
  foldl timer_effect tbl fs.

(** Modelled from the spec: the event loop (not part of the sources at
    hand), as far as the tracker sees it.  "One logical thread processes
    engine callbacks, timer firings, and inbound actions strictly
    sequentially", and timers "are rearmed, not interval-repeating": a
    notification can come at any time; a tick is the firing of the oldest
    pending timer, which leaves the table before [stats_poll] runs.  The
    result is [None] when [l] has a tick at a moment no timer is pending. *)
Fixpoint run_timers (s : tracker) (tbl : list Z) (l : list input)
    : option (tracker * list Z) :=
  match l with
  | [] => Some (s, tbl)
  | Notify e :: l' =>
      run_timers (step s (Notify e)) (timers tbl (emitted s (step s (Notify e)))) l'
  | Tick e :: l' =>
      match tbl with
      | [] => None
      | _ :: tbl' =>
          run_timers (step s (Tick e)) (timers tbl' (emitted s (step s (Tick e)))) l'
      end
  end.

(** The table holds the timer [stats_ioid] names while the last state
    observed is a connected one, and nothing otherwise. *)
Definition one_timer (s : tracker) (tbl : list Z) : Prop :=
  well_armed s
  /\ tbl = if bool_decide (old_cstate s = NOT_CONNECTED) then [] else [stats_ioid s].

(** The four counters last reported. *)
Definition snapshot (s : tracker) : Z * Z * Z * Z :=
  (brcvd s, rrcvd s, bsent s, rsent s).

(** [s'] comes from [s] by appending the effects [fs], and its snapshot is
    the one of [s] when [fs] holds no [stats] event, the one its last
    [stats] event reports otherwise. *)
Definition reports (s s' : tracker) (fs : list effect) : Prop :=
  effects s' = effects s ++ fs
  /\ ((events_tagged "stats" fs = [] /\ snapshot s' = snapshot s)
      \/ exists pre, events_tagged "stats" fs
                      = pre ++ [stats_event (brcvd s') (rrcvd s') (bsent s') (rsent s')]).

(** Whether [s] goes on with a digit, and whether it is made of digits. *)
Definition starts_with_digit (s : string) : bool :=
  match s with String c _ => Libc.isdigit c | EmptyString => false end.

Fixpoint all_digits (s : string) : bool :=
  match s with
  | String c s' => Libc.isdigit c && all_digits s'
  | EmptyString => true
  end.

(** The snapshot is what the last [stats] event said, four zeros when
    there has been none. *)
Definition snapshot_reported (s : tracker) : Prop :=
  match last (events_tagged "stats" (effects s)) with
  | Some ev => ev = stats_event (brcvd s) (rrcvd s) (bsent s) (rsent s)
  | None => (brcvd s, rrcvd s, bsent s, rsent s) = (0, 0, 0, 0)
  end.

(** The model names [Model_action] takes as its first parameter. *)
Definition model_names : list string :=
  ["3278-2"; "3278-3"; "3278-4"; "3278-5"; "3279-2"; "3279-3"; "3279-4"; "3279-5"].

(** The cells of [s'] are those of [s], or hold a space. *)
Definition only_blanked (s s' : emu) : Prop :=
  length (ea_buf s') = length (ea_buf s)
  /\ forall a c, ea_get s a = Some c ->
       exists c', ea_get s' a = Some c' /\ fa c' = fa c /\ db c' = db c
                  /\ (c' = c \/ cc c' = EBC_space).


(** The cell itself, the one after it and the one before it. *)
Definition near (s : emu) (b x : Z) : Prop :=
  x = b \/ x = INC_BA s b \/ x = DEC_BA s b.

(** The geometry, the model and the action output are as they were. *)
Definition same_settings (s s' : emu) : Prop :=
  ROWS s' = ROWS s /\ COLS s' = COLS s
  /\ maxROWS s' = maxROWS s /\ maxCOLS s' = maxCOLS s
  /\ model_num s' = model_num s
  /\ ov_rows s' = ov_rows s /\ ov_cols s' = ov_cols s
  /\ m3279 s' = m3279 s /\ outputs s' = outputs s.

(** [s1] is [s] with at most two more pop-ups. *)
Definition reported (s s1 : emu) : Prop :=
  same_settings s s1 /\ ea_buf s1 = ea_buf s /\ mdt s1 = mdt s
  /\ exists msgs, popups s1 = popups s ++ msgs /\ (length msgs <= 2)%nat.

(** What visiting the addresses [vis] can do to [s0], whatever the buffer
    holds: a cell keeps its attribute and its role, and is as it was unless
    it holds a space and is next to a visited address; only visited
    addresses get marked, and no mark is taken away. *)
Record touched (s0 s : emu) (vis : list Z) : Prop := {
  tc_settings : same_settings s0 s;
  tc_popups : popups s = popups s0;
  tc_length : length (ea_buf s) = length (ea_buf s0);
  tc_cells : forall a c0, ea_get s0 a = Some c0 ->
    exists c, ea_get s a = Some c /\ fa c = fa c0 /\ db c = db c0
              /\ (c = c0 \/ (cc c = EBC_space /\ exists b, b ∈ vis /\ near s0 b a));
  tc_marks : forall a, a ∈ mdt s -> a ∈ mdt s0 \/ a ∈ vis;
  tc_kept : forall a, a ∈ mdt s0 -> a ∈ mdt s
}.

End More.

(** * Properties *)

(** ** The translation tables *)

Section TablesFacts.
Import Tables.

Lemma elem_of_all_bytes (b : Z) : b ∈ all_bytes <-> 0 <= b < 256.
Proof. unfold all_bytes. rewrite elem_of_seqZ. lia. Qed.

Lemma collision_sound (tbl : list Z) (b b' : Z) :
  collision tbl b = Some b' ->
  0 <= b' < 256 /\ b' <> b /\ at_index tbl b' = at_index tbl b.
Proof.
  unfold collision. intros Hf. apply find_some in Hf as [Hin Hp].
  apply list_elem_of_In, elem_of_all_bytes in Hin.
  apply andb_true_iff in Hp as [Hne Heq].
  apply negb_true_iff, Z.eqb_neq in Hne.
  apply bool_decide_eq_true in Heq. auto.
Qed.

(** Every byte either shares its image under [ebc2asc0] with another byte or
    comes back from the round trip. *)
Lemma bytes_checked :
  forallb (fun b => match collision ebc2asc0 b with
                    | Some _ => true
                    | None => bool_decide (round_trip b = Some b)
                    end) all_bytes = true.
Proof. vm_compute. reflexivity. Qed.

(** C8: for every byte [b] at which [ebc2asc0] is injective (no other byte
    has the same image), [asc2ebc0[ebc2asc0[b]] = b]. *)
Theorem ebc2asc0_round_trip (b : Z) :
  0 <= b < 256 ->
  (forall b', 0 <= b' < 256 ->
     at_index ebc2asc0 b' = at_index ebc2asc0 b -> b' = b) ->
  round_trip b = Some b.
Proof.
  intros Hb Hinj.
  pose proof bytes_checked as Hall.
  rewrite forallb_forall in Hall.
  specialize (Hall b). rewrite <- list_elem_of_In, elem_of_all_bytes in Hall.
  specialize (Hall Hb).
  destruct (collision ebc2asc0 b) as [b'|] eqn:Hc.
  - apply collision_sound in Hc as (Hr & Hne & Heq).
    exfalso. apply Hne. apply Hinj; assumption.
  - apply bool_decide_eq_true in Hall. exact Hall.
Qed.

(** No byte collides with [b] when [collision] finds none. *)
Lemma collision_complete (tbl : list Z) (b : Z) :
  collision tbl b = None ->
  forall b', 0 <= b' < 256 -> at_index tbl b' = at_index tbl b -> b' = b.
Proof.
  unfold collision. intros Hf b' Hr Heq.
  pose proof (find_none _ _ Hf b') as Hn. cbv beta in Hn.
  rewrite <- list_elem_of_In, elem_of_all_bytes in Hn. specialize (Hn Hr).
  apply andb_false_iff in Hn as [Hn | Hn].
  - apply negb_false_iff, Z.eqb_eq in Hn. exact Hn.
  - apply bool_decide_eq_false in Hn. contradiction.
Qed.

(** The letter A, EBCDIC 0xc1, is such a byte: it maps to 0x41 and back. *)
Lemma ebc2asc0_round_trip_witness : round_trip 0xc1 = Some 0xc1.
Proof.
  apply (ebc2asc0_round_trip 0xc1).
  - lia.
  - apply collision_complete. vm_compute. reflexivity.
Defined.

End TablesFacts.

(** ** The version check *)

Section VersionFacts.
Import Version.

(** C9: [parse_version] maps "3.4ga10" to (3,4,10), "3.5alpha3" to (3,5,3),
    "3.4" to (3,4,0) and "3" to (3,0,0), and it fails on "bad". *)
Theorem parse_version_examples :
  parse_version "3.4ga10" = (true, Ver 3 4 10)
  /\ parse_version "3.5alpha3" = (true, Ver 3 5 3)
  /\ parse_version "3.4" = (true, Ver 3 4 0)
  /\ parse_version "3" = (true, Ver 3 0 0)
  /\ fst (parse_version "bad") = false.
Proof. repeat split; vm_compute; reflexivity. Qed.

(** C5, at the failing inputs: a minor segment with no digit is accepted.
    After the call for the minor number the code tests [ptr == text], which
    cannot hold there, where the major and iteration tests have [ptr == t];
    "3." parses as (3,0,0) and "3.x5" as (3,0,5). *)
Theorem parse_version_accepts_empty_minor :
  parse_version "3." = (true, Ver 3 0 0)
  /\ parse_version "3.x5" = (true, Ver 3 0 5).
Proof. split; vm_compute; reflexivity. Qed.

Lemma too_old_false (our min : version) :
  too_old our min = false <->
  major min <= major our /\ minor min <= minor our /\ iteration min <= iteration our.
Proof.
  unfold too_old. rewrite !orb_false_iff, !Z.ltb_ge. tauto.
Qed.

(** The outcome of the check once both strings parse. *)
Lemma check_min_version_parsed (build res minv : string) (our min : version) :
  parse_version build = (true, our) ->
  parse_version minv = (true, min) ->
  check_min_version build res (Some minv) =
    if too_old our min
    then Exit 1 ("Version " +:+ build +:+ " < requested " +:+ minv +:+ ", aborting"
                   +:+ newline)
    else Return our.
Proof.
  intros Hb Hm. unfold check_min_version. rewrite Hb, Hm. reflexivity.
Qed.




End VersionFacts.


(** ** The connection and statistics tracker *)

Section TrackerFacts.
Import Ui Tracker.

Lemma emitted_app (s s' : tracker) (fs : list effect) :
  effects s' = effects s ++ fs -> emitted s s' = fs.
Proof. intros H. unfold emitted. rewrite H. apply drop_app_length. Qed.

Lemma events_tagged_app (t : string) (fs gs : list effect) :
  events_tagged t (fs ++ gs) = events_tagged t fs ++ events_tagged t gs.
Proof. unfold events_tagged. apply omap_app. Qed.

Lemma final_stats_spec (e : engine) (s : tracker) :
  exists fs,
    extends s (final_stats e s) fs
    /\ events_tagged "connection" fs = []
    /\ events_tagged "stats" fs =
         (if bool_decide (cstate_of e = NOT_CONNECTED)
             && negb (stats_ioid s =? NULL_IOID) && stats_changed e s
          then [current_stats_event e] else [])
    /\ (cstate_of e = NOT_CONNECTED -> stats_ioid (final_stats e s) = NULL_IOID)
    /\ (cstate_of e <> NOT_CONNECTED -> stats_ioid (final_stats e s) = stats_ioid s)
    /\ next_ioid (final_stats e s) = next_ioid s.
Proof.
  destruct s as [b r bs rs io old nx fx], e as [c h nb nr nbs nrs].
  unfold final_stats, current_stats_event. simpl.
  case_bool_decide as Hc; simpl.
  - destruct (io =? NULL_IOID) eqn:Hio; simpl.
    + apply Z.eqb_eq in Hio. exists []. repeat split; auto.
      simpl. symmetry. apply app_nil_r.
    + unfold stats_changed. simpl.
      destruct (negb (b =? nb) || negb (r =? nr) || negb (bs =? nbs) || negb (rs =? nrs));
        simpl; eexists; repeat split; simpl; rewrite <- ?app_assoc;
        try reflexivity; try congruence.
  - exists []. repeat split; auto; try congruence.
    simpl. symmetry. apply app_nil_r.
Qed.

Lemma tell_gui_spec (e : engine) (s : tracker) :
  exists fs,
    extends s (tell_gui e s) fs
    /\ events_tagged "connection" fs = [connection_event e]
    /\ events_tagged "stats" fs = []
    /\ stats_ioid (tell_gui e s) = stats_ioid s
    /\ next_ioid (tell_gui e s) = next_ioid s.
Proof.
  destruct s as [b r bs rs io old nx fx], e as [c h nb nr nbs nrs].
  unfold tell_gui, connection_event. simpl.
  repeat (case_bool_decide; simpl); eexists; repeat split; simpl;
    rewrite <- ?app_assoc; try reflexivity.
Qed.

Lemma initial_stats_spec (e : engine) (s : tracker) :
  exists fs,
    extends s (initial_stats e s) fs
    /\ events_tagged "connection" fs = []
    /\ events_tagged "stats" fs =
         (if negb (bool_decide (cstate_of e = NOT_CONNECTED))
             && (stats_ioid s =? NULL_IOID)
          then [stats_event 0 0 0 0] else [])
    /\ (cstate_of e = NOT_CONNECTED ->
        stats_ioid (initial_stats e s) = stats_ioid s)
    /\ (cstate_of e <> NOT_CONNECTED -> NULL_IOID < next_ioid s ->
        stats_ioid (initial_stats e s) <> NULL_IOID)
    /\ next_ioid s <= next_ioid (initial_stats e s).
Proof.
  destruct s as [b r bs rs io old nx fx], e as [c h nb nr nbs nrs].
  unfold initial_stats. simpl.
  case_bool_decide as Hc; simpl.
  - exists []. repeat split; auto; try congruence; try lia.
    simpl. symmetry. apply app_nil_r.
  - destruct (io =? NULL_IOID) eqn:Hio; simpl.
    + eexists. repeat split; simpl; rewrite <- ?app_assoc; try reflexivity;
        try congruence; unfold NULL_IOID in *; try lia.
    + apply Z.eqb_neq in Hio. exists []. repeat split; auto; try congruence; try lia.
      simpl. symmetry. apply app_nil_r.
Qed.

Lemma b3270_connect_same (e : engine) (s : tracker) :
  cstate_of e = old_cstate s -> b3270_connect e s = s.
Proof.
  intros H. unfold b3270_connect. rewrite bool_decide_eq_true_2 by exact H.
  reflexivity.
Qed.

(** A notification with another state: one [connection] event, the final
    statistics before it on a disconnect, the initial ones after it on a
    connect. *)
Lemma b3270_connect_changed (e : engine) (s : tracker) :
  cstate_of e <> old_cstate s ->
  exists fs,
    effects (b3270_connect e s) = effects s ++ fs
    /\ events_tagged "connection" fs = [connection_event e]
    /\ events_tagged "stats" fs =
         (if bool_decide (cstate_of e = NOT_CONNECTED)
             && negb (stats_ioid s =? NULL_IOID) && stats_changed e s
          then [current_stats_event e] else [])
         ++ (if negb (bool_decide (cstate_of e = NOT_CONNECTED))
                && (stats_ioid s =? NULL_IOID)
             then [stats_event 0 0 0 0] else []).
Proof.
  intros H. unfold b3270_connect. rewrite bool_decide_eq_false_2 by exact H.
  destruct (final_stats_spec e s) as (f1 & [E1 O1] & C1 & S1 & I1 & I1' & N1).
  destruct (tell_gui_spec e (final_stats e s)) as (f2 & [E2 O2] & C2 & S2 & I2 & N2).
  destruct (initial_stats_spec e (tell_gui e (final_stats e s)))
    as (f3 & [E3 O3] & C3 & S3 & I3 & I3' & N3).
  exists (f1 ++ f2 ++ f3). split; [|split].
  - change (effects (set_old_cstate ?c ?t)) with (effects t).
    rewrite E3, E2, E1, <- !app_assoc. reflexivity.
  - rewrite !events_tagged_app, C1, C2, C3. reflexivity.
  - rewrite !events_tagged_app, S1, S2, S3, I2. simpl. f_equal.
    case_bool_decide as Hc; [reflexivity|].
    rewrite (I1' Hc). reflexivity.
Qed.

Lemma b3270_connect_old_cstate (e : engine) (s : tracker) :
  old_cstate (b3270_connect e s) = cstate_of e.
Proof.
  unfold b3270_connect. case_bool_decide; [congruence|]. reflexivity.
Qed.

(** A tick appends no [connection] event and keeps the observed state. *)
Lemma stats_poll_effects (e : engine) (s : tracker) :
  exists fs, effects (stats_poll e s) = effects s ++ fs
             /\ events_tagged "connection" fs = []
             /\ events_tagged "stats" fs =
                  (if stats_changed e s then [current_stats_event e] else [])
             /\ old_cstate (stats_poll e s) = old_cstate s.
Proof.
  destruct s as [b r bs rs io old nx fx], e as [c h nb nr nbs nrs].
  unfold stats_poll, current_stats_event.
  destruct (stats_changed _ _); simpl; rewrite <- ?app_assoc;
    eexists; (split; [reflexivity|]); repeat split.
Qed.

Lemma step_effects (s : tracker) (i : input) :
  exists fs, effects (step s i) = effects s ++ fs
             /\ length (events_tagged "connection" fs) =
                  state_changes (old_cstate s) [i].
Proof.
  destruct i as [e|e]; simpl.
  - case_bool_decide as Hc.
    + rewrite b3270_connect_same by exact Hc. exists []. split; [|reflexivity].
      symmetry. apply app_nil_r.
    + destruct (b3270_connect_changed e s Hc) as (fs & Hfs & Hev & _).
      exists fs. rewrite Hev. auto.
  - destruct (stats_poll_effects e s) as (fs & Hfs & Hev & _).
    exists fs. rewrite Hev. auto.
Qed.

Lemma step_old_cstate (s : tracker) (i : input) :
  old_cstate (step s i) =
    match i with Notify e => cstate_of e | Tick _ => old_cstate s end.
Proof.
  destruct i as [e|e]; simpl.
  - apply b3270_connect_old_cstate.
  - destruct (stats_poll_effects e s) as (fs & _ & _ & _ & H). exact H.
Qed.

Lemma run_effects (l : list input) (s : tracker) :
  exists fs, effects (run s l) = effects s ++ fs
             /\ length (events_tagged "connection" fs) =
                  state_changes (old_cstate s) l.
Proof.
  revert s. induction l as [|i l IH]; intros s.
  - exists []. split; [symmetry; apply app_nil_r | reflexivity].
  - unfold run. simpl foldl. fold (run (step s i) l).
    destruct (step_effects s i) as (fs1 & H1 & L1).
    destruct (IH (step s i)) as (fs2 & H2 & L2).
    exists (fs1 ++ fs2). split.
    + rewrite H2, H1. symmetry. apply app_assoc.
    + rewrite events_tagged_app, length_app, L1, L2, step_old_cstate.
      destruct i as [e|e]; simpl; lia.
Qed.

(** C6: over any sequence of notifications (with ticks of the statistics
    timer in between), a notification emits exactly one [connection] event
    when its state differs from the state observed before it and none when
    it is the same; so the number of [connection] events is the number of
    notifications that change the state. *)
Theorem connection_event_per_state_change (s : tracker) (l : list input) :
  (forall e,
     events_tagged "connection" (emitted s (b3270_connect e s)) =
       if bool_decide (cstate_of e = old_cstate s) then [] else [connection_event e])
  /\ length (events_tagged "connection" (emitted s (run s l))) =
       state_changes (old_cstate s) l.
Proof.
  split.
  - intros e. case_bool_decide as Hc.
    + rewrite b3270_connect_same by exact Hc.
      rewrite (emitted_app s s []) by (symmetry; apply app_nil_r). reflexivity.
    + destruct (b3270_connect_changed e s Hc) as (fs & Hfs & Hev & _).
      rewrite (emitted_app _ _ _ Hfs). exact Hev.
  - destruct (run_effects l s) as (fs & Hfs & Hlen).
    rewrite (emitted_app _ _ _ Hfs). exact Hlen.
Qed.

(** *** Statistics *)

Lemma stats_changed_iff (e : engine) (s : tracker) :
  stats_changed e s = true <->
  (brcvd s, rrcvd s, bsent s, rsent s)
    <> (ns_brcvd e, ns_rrcvd e, ns_bsent e, ns_rsent e).
Proof.
  unfold stats_changed.
  rewrite !orb_true_iff, !negb_true_iff, !Z.eqb_neq.
  split.
  - intros H Heq. inversion Heq. tauto.
  - intros H.
    destruct (decide (brcvd s = ns_brcvd e)); [|tauto].
    destruct (decide (rrcvd s = ns_rrcvd e)); [|tauto].
    destruct (decide (bsent s = ns_bsent e)); [|tauto].
    destruct (decide (rsent s = ns_rsent e)); [|tauto].
    exfalso. apply H. congruence.
Qed.

(** The state the program starts in is well armed, and notifications and
    ticks of a pending timer keep it so. *)
Lemma well_armed_initial : well_armed initial.
Proof. unfold well_armed, initial, NULL_IOID. simpl. split; [tauto | lia]. Qed.

Lemma well_armed_b3270_connect (e : engine) (s : tracker) :
  well_armed s -> well_armed (b3270_connect e s).
Proof.
  intros [Hio Hnx]. unfold well_armed.
  destruct (decide (cstate_of e = old_cstate s)) as [Hc|Hc].
  { rewrite b3270_connect_same by exact Hc. split; assumption. }
  unfold b3270_connect. rewrite bool_decide_eq_false_2 by exact Hc.
  destruct (final_stats_spec e s) as (f1 & [E1 O1] & _ & _ & I1 & I1' & N1).
  destruct (tell_gui_spec e (final_stats e s)) as (f2 & [E2 O2] & _ & _ & I2 & N2).
  destruct (initial_stats_spec e (tell_gui e (final_stats e s)))
    as (f3 & [E3 O3] & _ & _ & I3 & I3' & N3).
  change (stats_ioid (set_old_cstate ?c ?t)) with (stats_ioid t).
  change (next_ioid (set_old_cstate ?c ?t)) with (next_ioid t).
  change (old_cstate (set_old_cstate ?c ?t)) with c.
  split; [|lia].
  destruct (decide (cstate_of e = NOT_CONNECTED)) as [Hn|Hn].
  - rewrite (I3 Hn), I2, (I1 Hn). tauto.
  - split; [|tauto]. intros H. exfalso. revert H. apply I3'; [exact Hn|]. lia.
Qed.

Lemma well_armed_stats_poll (e : engine) (s : tracker) :
  well_armed s -> stats_ioid s <> NULL_IOID -> well_armed (stats_poll e s).
Proof.
  intros [Hio Hnx] Hp.
  destruct s as [b r bs rs io old nx fx]. unfold well_armed, stats_poll in *.
  simpl in *. destruct (stats_changed _ _); simpl; unfold NULL_IOID in *;
    (split; [|lia]); split; intros H; try lia; tauto.
Qed.

(** *** The snapshot after a call *)

Lemma stats_unchanged (e : engine) (s : tracker) :
  stats_changed e s = false ->
  (brcvd s, rrcvd s, bsent s, rsent s)
    = (ns_brcvd e, ns_rrcvd e, ns_bsent e, ns_rsent e).
Proof.
  intros H. destruct (decide ((brcvd s, rrcvd s, bsent s, rsent s)
                              = (ns_brcvd e, ns_rrcvd e, ns_bsent e, ns_rsent e)))
    as [E|E]; [exact E|].
  apply stats_changed_iff in E. congruence.
Qed.

Lemma stats_poll_snapshot (e : engine) (s : tracker) :
  let s' := stats_poll e s in
  (brcvd s', rrcvd s', bsent s', rsent s')
    = (ns_brcvd e, ns_rrcvd e, ns_bsent e, ns_rsent e).
Proof.
  pose proof (stats_unchanged e s) as Hu.
  destruct s as [b r bs rs io old nx fx], e as [c h nb nr nbs nrs].
  unfold stats_poll. simpl in *.
  destruct (stats_changed _ _); simpl; [reflexivity | exact (Hu eq_refl)].
Qed.

Lemma final_stats_snapshot (e : engine) (s : tracker) :
  let s' := final_stats e s in
  (brcvd s', rrcvd s', bsent s', rsent s')
    = if bool_decide (cstate_of e = NOT_CONNECTED) && negb (stats_ioid s =? NULL_IOID)
      then (ns_brcvd e, ns_rrcvd e, ns_bsent e, ns_rsent e)
      else (brcvd s, rrcvd s, bsent s, rsent s).
Proof.
  pose proof (stats_unchanged e s) as Hu.
  destruct s as [b r bs rs io old nx fx], e as [c h nb nr nbs nrs].
  unfold final_stats. simpl in *.
  destruct (bool_decide (c = NOT_CONNECTED) && negb (io =? NULL_IOID));
    [|reflexivity].
  unfold stats_changed in *. simpl in *.
  destruct (negb (b =? nb) || negb (r =? nr) || negb (bs =? nbs) || negb (rs =? nrs));
    simpl; [reflexivity | exact (Hu eq_refl)].
Qed.

Lemma tell_gui_snapshot (e : engine) (s : tracker) :
  let s' := tell_gui e s in
  (brcvd s', rrcvd s', bsent s', rsent s') = (brcvd s, rrcvd s, bsent s, rsent s).
Proof.
  destruct s as [b r bs rs io old nx fx], e as [c h nb nr nbs nrs].
  unfold tell_gui. simpl. repeat (case_bool_decide; simpl); reflexivity.
Qed.

Lemma initial_stats_snapshot (e : engine) (s : tracker) :
  let s' := initial_stats e s in
  (brcvd s', rrcvd s', bsent s', rsent s')
    = if negb (bool_decide (cstate_of e = NOT_CONNECTED)) && (stats_ioid s =? NULL_IOID)
      then (0, 0, 0, 0)
      else (brcvd s, rrcvd s, bsent s, rsent s).
Proof.
  destruct s as [b r bs rs io old nx fx], e as [c h nb nr nbs nrs].
  unfold initial_stats. simpl.
  destruct (negb (bool_decide (c = NOT_CONNECTED)) && (io =? NULL_IOID)); reflexivity.
Qed.

(** The snapshot after a notification with another state. *)
Lemma b3270_connect_snapshot (e : engine) (s : tracker) :
  well_armed s -> cstate_of e <> old_cstate s ->
  let s' := b3270_connect e s in
  (brcvd s', rrcvd s', bsent s', rsent s')
    = if bool_decide (cstate_of e = NOT_CONNECTED)
      then (ns_brcvd e, ns_rrcvd e, ns_bsent e, ns_rsent e)
      else if bool_decide (old_cstate s = NOT_CONNECTED)
           then (0, 0, 0, 0)
           else (brcvd s, rrcvd s, bsent s, rsent s).
Proof.
  intros [Hio _] Hc. cbv zeta. unfold b3270_connect.
  rewrite bool_decide_eq_false_2 by exact Hc.
  change (brcvd (set_old_cstate ?c ?t)) with (brcvd t).
  change (rrcvd (set_old_cstate ?c ?t)) with (rrcvd t).
  change (bsent (set_old_cstate ?c ?t)) with (bsent t).
  change (rsent (set_old_cstate ?c ?t)) with (rsent t).
  pose proof (initial_stats_snapshot e (tell_gui e (final_stats e s))) as H3.
  pose proof (tell_gui_snapshot e (final_stats e s)) as H2.
  pose proof (final_stats_snapshot e s) as H1.
  destruct (final_stats_spec e s) as (f1 & _ & _ & _ & I1 & I1' & _).
  destruct (tell_gui_spec e (final_stats e s)) as (f2 & _ & _ & _ & I2 & _).
  cbv zeta in H1, H2, H3. rewrite H3, I2, H2, H1. clear H1 H2 H3.
  case_bool_decide as Hn.
  - rewrite (I1 Hn).
    assert (old_cstate s <> NOT_CONNECTED) as Ho by congruence.
    assert ((stats_ioid s =? NULL_IOID) = false) as -> by (apply Z.eqb_neq; tauto).
    reflexivity.
  - rewrite (I1' Hn). simpl.
    case_bool_decide as Ho.
    + assert ((stats_ioid s =? NULL_IOID) = true) as -> by (apply Z.eqb_eq; tauto).
      reflexivity.
    + assert ((stats_ioid s =? NULL_IOID) = false) as -> by (apply Z.eqb_neq; tauto).
      reflexivity.
Qed.

(** C3, as stated, fails at a connect boundary: the first notification
    of a connection arrives with all counters equal to the snapshot, still
    zero, and a [stats] event is emitted all the same. *)
Lemma connect_emits_stats_without_change :
  stats_changed (Engine RESOLVING (Some "host") 0 0 0 0) initial = false
  /\ events_tagged "stats"
       (emitted initial (b3270_connect (Engine RESOLVING (Some "host") 0 0 0 0) initial))
     = [stats_event 0 0 0 0].
Proof. split; vm_compute; reflexivity. Qed.

(** C3, amended: at a tick and at a disconnect boundary a [stats] event
    with the four current counters is emitted if and only if one of them
    differs from the snapshot, and nothing is emitted otherwise, and the
    snapshot then holds the current counters; at a connect boundary the
    snapshot is reset to zero and a [stats] event with four zeros is emitted
    whatever the counters are; a change between two connected states emits
    no [stats] event and keeps the snapshot. *)
Theorem stats_event_rule (e : engine) (s : tracker) :
  well_armed s ->
  (stats_changed e s = true <->
     (brcvd s, rrcvd s, bsent s, rsent s)
       <> (ns_brcvd e, ns_rrcvd e, ns_bsent e, ns_rsent e))
  /\ (events_tagged "stats" (emitted s (stats_poll e s)) =
        (if stats_changed e s then [current_stats_event e] else [])
      /\ let s' := stats_poll e s in
         (brcvd s', rrcvd s', bsent s', rsent s')
           = (ns_brcvd e, ns_rrcvd e, ns_bsent e, ns_rsent e))
  /\ (old_cstate s <> NOT_CONNECTED -> cstate_of e = NOT_CONNECTED ->
      events_tagged "stats" (emitted s (b3270_connect e s)) =
        (if stats_changed e s then [current_stats_event e] else [])
      /\ let s' := b3270_connect e s in
         (brcvd s', rrcvd s', bsent s', rsent s')
           = (ns_brcvd e, ns_rrcvd e, ns_bsent e, ns_rsent e))
  /\ (old_cstate s = NOT_CONNECTED -> cstate_of e <> NOT_CONNECTED ->
      events_tagged "stats" (emitted s (b3270_connect e s)) = [stats_event 0 0 0 0]
      /\ let s' := b3270_connect e s in
         (brcvd s', rrcvd s', bsent s', rsent s') = (0, 0, 0, 0))
  /\ (old_cstate s <> NOT_CONNECTED -> cstate_of e <> NOT_CONNECTED ->
      events_tagged "stats" (emitted s (b3270_connect e s)) = []
      /\ let s' := b3270_connect e s in
         (brcvd s', rrcvd s', bsent s', rsent s')
           = (brcvd s, rrcvd s, bsent s, rsent s)).
Proof.
  intros Hw. pose proof Hw as [Hio Hnx].
  split; [apply stats_changed_iff|]. split.
  { split; [|apply stats_poll_snapshot].
    destruct (stats_poll_effects e s) as (fs & Hfs & _ & Hst & _).
    rewrite (emitted_app _ _ _ Hfs). exact Hst. }
  assert (Hev : cstate_of e <> old_cstate s ->
    events_tagged "stats" (emitted s (b3270_connect e s)) =
      (if bool_decide (cstate_of e = NOT_CONNECTED)
          && negb (stats_ioid s =? NULL_IOID) && stats_changed e s
       then [current_stats_event e] else [])
      ++ (if negb (bool_decide (cstate_of e = NOT_CONNECTED))
             && (stats_ioid s =? NULL_IOID)
          then [stats_event 0 0 0 0] else [])).
  { intros Hc. destruct (b3270_connect_changed e s Hc) as (fs & Hfs & _ & Hst).
    rewrite (emitted_app _ _ _ Hfs). exact Hst. }
  split; [|split].
  - intros Hold Hnew. split.
    + rewrite Hev by congruence.
      rewrite bool_decide_eq_true_2 by exact Hnew.
      assert ((stats_ioid s =? NULL_IOID) = false) as -> by (apply Z.eqb_neq; tauto).
      simpl. apply app_nil_r.
    + cbv zeta. rewrite (b3270_connect_snapshot e s Hw) by congruence.
      rewrite bool_decide_eq_true_2 by exact Hnew. reflexivity.
  - intros Hold Hnew. split.
    + rewrite Hev by congruence.
      rewrite bool_decide_eq_false_2 by exact Hnew.
      assert ((stats_ioid s =? NULL_IOID) = true) as -> by (apply Z.eqb_eq; tauto).
      reflexivity.
    + cbv zeta. rewrite (b3270_connect_snapshot e s Hw) by congruence.
      rewrite bool_decide_eq_false_2 by exact Hnew.
      rewrite bool_decide_eq_true_2 by exact Hold. reflexivity.
  - intros Hold Hnew.
    destruct (decide (cstate_of e = old_cstate s)) as [Hc|Hc].
    + rewrite b3270_connect_same by exact Hc.
      rewrite (emitted_app s s []) by (symmetry; apply app_nil_r).
      split; reflexivity.
    + split.
      * rewrite Hev by exact Hc.
        rewrite bool_decide_eq_false_2 by exact Hnew.
        assert ((stats_ioid s =? NULL_IOID) = false) as -> by (apply Z.eqb_neq; tauto).
        reflexivity.
      * cbv zeta. rewrite (b3270_connect_snapshot e s Hw) by exact Hc.
        rewrite bool_decide_eq_false_2 by exact Hnew.
        rewrite bool_decide_eq_false_2 by exact Hold. reflexivity.
Qed.

(** A session that connects, receives 10 bytes in one record, and
    disconnects: the disconnect reports them; a second connection starts
    again from a snapshot of zeros. *)
Lemma stats_event_rule_witness :
  let s1 := b3270_connect (Engine RESOLVING (Some "host") 0 0 0 0) initial in
  let s2 := b3270_connect (Engine NOT_CONNECTED None 10 1 0 0) s1 in
  let s3 := b3270_connect (Engine RESOLVING (Some "host") 10 1 0 0) s2 in
  well_armed s1 /\ well_armed s2
  /\ events_tagged "stats" (emitted s1 s2) = [stats_event 10 1 0 0]
  /\ (brcvd s2, rrcvd s2, bsent s2, rsent s2) = (10, 1, 0, 0)
  /\ events_tagged "stats" (emitted s2 s3) = [stats_event 0 0 0 0]
  /\ (brcvd s3, rrcvd s3, bsent s3, rsent s3) = (0, 0, 0, 0).
Proof.
  intros s1 s2 s3.
  assert (Hw1 : well_armed s1) by apply well_armed_b3270_connect, well_armed_initial.
  assert (Hw2 : well_armed s2) by apply well_armed_b3270_connect, Hw1.
  split; [exact Hw1|]. split; [exact Hw2|].
  destruct (stats_event_rule (Engine NOT_CONNECTED None 10 1 0 0) s1 Hw1)
    as (_ & _ & Hd & _).
  destruct (stats_event_rule (Engine RESOLVING (Some "host") 10 1 0 0) s2 Hw2)
    as (_ & _ & _ & Hc & _).
  destruct Hd as [Hd1 Hd2]; [vm_compute; discriminate | reflexivity|].
  destruct Hc as [Hc1 Hc2]; [reflexivity | discriminate|].
  split; [exact Hd1|]. split; [exact Hd2|]. split; [exact Hc1 | exact Hc2].
Defined.

End TrackerFacts.

(** ** The toggle handler *)

Section ToggleFacts.
Import Ui Toggles.

Lemma lookup_name_None (names : list toggle_name_t) (ix : toggle_index_t) :
  lookup_name names ix = None <-> Forall (fun n => index n <> ix) names.
Proof.
  induction names as [|n names IH]; simpl.
  - split; [constructor | reflexivity].
  - case_bool_decide as Hn.
    + split; [discriminate|]. intros H. inversion H. contradiction.
    + rewrite IH. split.
      * intros H. constructor; assumption.
      * intros H. inversion H. assumption.
Qed.

Lemma lookup_name_Some (names : list toggle_name_t) (ix : toggle_index_t)
    (n : toggle_name_t) :
  lookup_name names ix = Some n -> n ∈ names /\ index n = ix.
Proof.
  induction names as [|m names IH]; simpl; [discriminate|].
  case_bool_decide as Hm.
  - intros [= <-]. split; [left | exact Hm].
  - intros H. destruct (IH H). split; [right|]; assumption.
Qed.

(** The attributes of a [toggle] event. *)
Lemma toggle_event_attrs (a b : string) (o : option string) :
  let ev := ui_vleaf "toggle" [("name", Some a); ("value", Some b); ("file", o)] in
  attr "name" ev = Some a /\ attr "value" ev = Some b /\ attr "file" ev = o.
Proof. destruct o; repeat split. Qed.

(** C10: for an index with no entry in [toggle_names] the handler emits
    nothing and leaves the event stream as it was; for an index with an
    entry it emits one [toggle] event with the entry's name and the toggle's
    value, and that event has a [file] attribute exactly when the index is
    [TRACING], the toggle is on and a trace file name is set, the attribute
    being that name. *)
Theorem b3270_toggle_event {toggle_type : Type} (env : toggle_env)
    (ix : toggle_index_t) (tt : toggle_type) (out : list event) :
  (Forall (fun n => index n <> ix) (toggle_names env) ->
     b3270_toggle env ix tt out = out)
  /\ (Exists (fun n => index n = ix) (toggle_names env) ->
      exists n ev,
        n ∈ toggle_names env /\ index n = ix
        /\ b3270_toggle env ix tt out = out ++ [ev]
        /\ tag ev = "toggle"
        /\ attr "name" ev = Some (name n)
        /\ attr "value" ev = Some (if toggled env ix then "true" else "false")
        /\ (forall f, attr "file" ev = Some f <->
              ix = TRACING /\ toggled env ix = true /\ tracefile_name env = Some f)).
Proof.
  unfold b3270_toggle. split.
  - intros H. apply lookup_name_None in H. rewrite H. reflexivity.
  - intros H. destruct (lookup_name (toggle_names env) ix) as [n|] eqn:Hl.
    + destruct (lookup_name_Some _ _ _ Hl) as [Hin Hix].
      eexists n, _. split; [exact Hin|]. split; [exact Hix|].
      split; [reflexivity|]. split; [reflexivity|].
      match goal with
      | |- attr _ (ui_vleaf _ [(_, Some ?a); (_, Some ?b); (_, ?o)]) = _ /\ _ =>
          destruct (toggle_event_attrs a b o) as (Ha & Hv & Hf)
      end.
      split; [exact Ha|]. split; [exact Hv|].
      intros f. rewrite Hf. split.
      * destruct (bool_decide (ix = TRACING)) eqn:Hb; [|discriminate].
        apply bool_decide_eq_true in Hb.
        destruct (toggled env ix); [|discriminate].
        destruct (tracefile_name env) as [g|]; [|discriminate].
        simpl. intros [= <-]. auto.
      * intros (Hix' & Hon & Hname). rewrite Hon, Hname.
        rewrite bool_decide_eq_true_2 by exact Hix'. reflexivity.
    + apply lookup_name_None in Hl. rewrite Forall_forall in Hl.
      rewrite Exists_exists in H. destruct H as (n & Hin' & Hix).
      exfalso. exact (Hl n Hin' Hix).
Qed.

(** With [demo_toggle_env]: no entry for [CROSSHAIR], so nothing is
    emitted; an entry for [TRACING], on, with a trace file, so the event
    names the file. *)
Lemma b3270_toggle_event_witness :
  b3270_toggle demo_toggle_env CROSSHAIR tt [] = []
  /\ exists ev, b3270_toggle demo_toggle_env TRACING tt [] = [ev]
                /\ attr "file" ev = Some "/tmp/x3trc.log".
Proof.
  split.
  - apply (b3270_toggle_event demo_toggle_env CROSSHAIR tt []).
    repeat constructor; discriminate.
  - destruct (proj2 (b3270_toggle_event demo_toggle_env TRACING tt []))
      as (n & ev & _ & _ & Hrun & _ & _ & _ & Hfile).
    + right. left. reflexivity.
    + exists ev. split; [exact Hrun|]. apply Hfile. repeat split.
Defined.

End ToggleFacts.

(** ** The Model action *)

Section ModelFacts.
Import Actions.

Variable set_rows_cols : Z -> Z -> Z -> emu -> emu.
Variable ctlr_reinit : Z -> emu -> emu.
Variable MODEL_CHANGE : Z.
Variable screen_init : emu -> emu.
Variable ctlr_erase : bool -> emu -> emu.

(** C7: with one or two arguments and a connection active, [Model] fails
    and changes neither the model number, the color mode, the oversize
    values nor the geometry and contents of the buffer; it only reports the
    error. *)
Theorem Model_action_while_connected (argv : list string) (s : emu) :
  (length argv = 1 \/ length argv = 2)%nat ->
  Model_action set_rows_cols ctlr_reinit MODEL_CHANGE screen_init ctlr_erase
               true argv s
    = (false, popup_an_error "Model: Cannot change model while connected" s)
  /\ let s' := snd (Model_action set_rows_cols ctlr_reinit MODEL_CHANGE screen_init
                                 ctlr_erase true argv s) in
     model_num s' = model_num s /\ m3279 s' = m3279 s
     /\ ov_rows s' = ov_rows s /\ ov_cols s' = ov_cols s
     /\ ROWS s' = ROWS s /\ COLS s' = COLS s
     /\ maxROWS s' = maxROWS s /\ maxCOLS s' = maxCOLS s
     /\ ea_buf s' = ea_buf s /\ mdt s' = mdt s.
Proof.
  intros Hlen.
  assert (Heq : Model_action set_rows_cols ctlr_reinit MODEL_CHANGE screen_init
                  ctlr_erase true argv s
                = (false, popup_an_error "Model: Cannot change model while connected" s)).
  { destruct argv as [|a0 [|a1 [|a2 rest]]]; simpl in Hlen;
      try (exfalso; lia); reflexivity. }
  split; [exact Heq|]. rewrite Heq. simpl. repeat split.
Qed.

End ModelFacts.

Section ModelWitness.
Import Actions.

(** [Model("3278-2","24x80")] while connected, on a blank 43 by 80 screen. *)
Lemma Model_action_while_connected_witness :
  Model_action (fun _ _ _ s => s) (fun _ s => s) 0 (fun s => s) (fun _ s => s)
               true ["3278-2"; "24x80"] (blank_screen 43 80)
  = (false, popup_an_error "Model: Cannot change model while connected"
              (blank_screen 43 80)).
Proof.
  apply (Model_action_while_connected
           (fun _ _ _ s => s) (fun _ s => s) 0 (fun s => s) (fun _ s => s)
           ["3278-2"; "24x80"] (blank_screen 43 80)).
  right. reflexivity.
Defined.

End ModelWitness.

(** ** The ClearRegion action *)

Section ClearRegionFacts.
Import Libc Actions.

(** *** Reading and writing cells *)

Lemma ea_get_Some (s : emu) (a : Z) (c : cell) :
  ea_get s a = Some c -> 0 <= a < Z.of_nat (length (ea_buf s)).
Proof.
  unfold ea_get. destruct (a <? 0) eqn:Ha; [discriminate|].
  apply Z.ltb_ge in Ha. intros H. apply lookup_lt_Some in H. lia.
Qed.


Lemma ea_get_set (s : emu) (a x : Z) (c : cell) :
  0 <= a < Z.of_nat (length (ea_buf s)) ->
  ea_get (ea_set a c s) x = if bool_decide (x = a) then Some c else ea_get s x.
Proof.
  intros Ha. unfold ea_get, ea_set. simpl.
  case_bool_decide as Hx.
  - subst x. destruct (a <? 0) eqn:Hn; [apply Z.ltb_lt in Hn; lia|].
    apply list_lookup_insert_eq. lia.
  - destruct (x <? 0) eqn:Hn; [reflexivity|]. apply Z.ltb_ge in Hn.
    apply list_lookup_insert_ne. lia.
Qed.




(** *** Address arithmetic *)


Lemma DEC_BA_range (s : emu) (a : Z) :
  0 <= a < COLS s * ROWS s -> 0 <= DEC_BA s a < COLS s * ROWS s.
Proof. intros H. unfold DEC_BA. destruct (a =? 0) eqn:E; lia. Qed.




(** *** The governing field attribute *)




(** *** One cell *)





(** *** What a run of the loop keeps *)













(** *** The loop *)














(** C1, at the failing inputs.  On a blank 24 by 80 screen,
    [ClearRegion(1,80,1,2)] runs past the right edge and
    [ClearRegion(1,81,1,1)] starts outside the screen.  Both are reported,
    but the action goes on, blanks and marks the cell at address 80 (row 2,
    column 1), which held a null, and returns true. *)
Theorem ClearRegion_action_invalid_still_clears :
  ea_get (blank_screen 24 80) 80 = Some (Cell 0 0 0 DBCS_NONE)
  /\ ((fun r => (fst r, popups (snd r), ea_get (snd r) 80, elements (mdt (snd r))))
        <$> ClearRegion_action ["1"; "80"; "1"; "2"] (blank_screen 24 80))
     = Some (true, ["ClearRegion: invalid size"],
             Some (Cell EBC_space 0 0 DBCS_NONE), [79; 80])
  /\ ((fun r => (fst r, popups (snd r), ea_get (snd r) 80, elements (mdt (snd r))))
        <$> ClearRegion_action ["1"; "81"; "1"; "1"] (blank_screen 24 80))
     = Some (true, ["ClearRegion: invalid coordinates"; "ClearRegion: invalid size"],
             Some (Cell EBC_space 0 0 DBCS_NONE), [80]).
Proof. repeat split; vm_compute; reflexivity. Qed.




End ClearRegionFacts.

(** * Further properties *)

(** ** The translation tables, continued *)

Section MoreTablesFacts.
Import Tables.

(** A test that holds of every element of [all_bytes] holds of every byte. *)
Lemma all_bytes_forallb (P : Z -> bool) (b : Z) :
  forallb P all_bytes = true -> 0 <= b < 256 -> P b = true.
Proof.
  intros H Hb. rewrite forallb_forall in H. apply H.
  apply list_elem_of_In, elem_of_all_bytes, Hb.
Qed.

(** X1: display to host and back.  For every ISO 8859-1 code [a] that
    [asc2ebc0] maps (every code but the control codes),
    [ebc2asc0[asc2ebc0[a]]] is [a] again, except that the no-break space
    0xa0 comes back as the space 0x20. *)
Theorem asc2ebc0_round_trip (a : Z) :
  0 <= a < 256 -> unmapped a = false ->
  (e ← at_index asc2ebc0 a; at_index ebc2asc0 e)
    = Some (if a =? 0xa0 then 0x20 else a).
Proof.
  intros Ha Hm.
  assert (Hall : forallb
    (fun a => unmapped a
              || bool_decide ((e ← at_index asc2ebc0 a; at_index ebc2asc0 e)
                              = Some (if a =? 0xa0 then 0x20 else a))) all_bytes = true)
      by (vm_compute; reflexivity).
    pose proof (all_bytes_forallb _ a Hall Ha) as H.
  cbv beta in H. rewrite Hm in H. apply bool_decide_eq_true in H. exact H.
Qed.

Lemma asc2ebc0_round_trip_witness :
  (e ← at_index asc2ebc0 0x41; at_index ebc2asc0 e) = Some 0x41.
Proof.
  apply (asc2ebc0_round_trip 0x41); [lia | reflexivity].
Defined.

(** X2: [asc2ebc0] sends a code to 0 exactly when the code is a control
    code (0x00-0x1f, 0x7f-0x9f), and on the other codes it is injective. *)
Theorem asc2ebc0_mapped (a b : Z) :
  0 <= a < 256 -> 0 <= b < 256 ->
  (at_index asc2ebc0 a = Some 0 <-> unmapped a = true)
  /\ (unmapped a = false -> unmapped b = false ->
      at_index asc2ebc0 a = at_index asc2ebc0 b -> a = b).
Proof.
  intros Ha Hb. split.
  - assert (Hall : forallb
      (fun a => bool_decide (at_index asc2ebc0 a = Some 0 <-> unmapped a = true)) all_bytes = true)
      by (vm_compute; reflexivity).
    pose proof (all_bytes_forallb _ a Hall Ha) as H.
    apply bool_decide_eq_true in H. exact H.
  - intros Hma Hmb Heq.
    assert (Hall : forallb
      (fun a => unmapped a
                || forallb (fun b => unmapped b
                                     || negb (bool_decide (at_index asc2ebc0 a
                                                           = at_index asc2ebc0 b))
                                     || (a =? b)) all_bytes) all_bytes = true)
      by (vm_compute; reflexivity).
    pose proof (all_bytes_forallb _ a Hall Ha) as H.
    cbv beta in H. apply orb_true_iff in H as [H|H]; [congruence|].
    pose proof (all_bytes_forallb _ b H Hb) as H'. cbv beta in H'.
    apply orb_true_iff in H' as [H'|H']; [|apply Z.eqb_eq, H'].
    apply orb_true_iff in H' as [H'|H']; [congruence|].
    apply negb_true_iff, bool_decide_eq_false in H'. contradiction.
Qed.

Lemma asc2ebc0_mapped_witness :
  (at_index asc2ebc0 0x7f = Some 0 <-> unmapped 0x7f = true)
  /\ (at_index asc2ebc0 0x41 = at_index asc2ebc0 0x41 -> 0x41 = 0x41).
Proof.
  destruct (asc2ebc0_mapped 0x7f 0x7f) as [H1 _]; [lia | lia |].
  destruct (asc2ebc0_mapped 0x41 0x41) as [_ H2]; [lia | lia |].
  split; [exact H1 | exact (H2 eq_refl eq_refl)].
Defined.

(** X3: the two routes to the character generator agree.  For every
    mapped ISO 8859-1 code [a], [ebc2cg0[asc2ebc0[a]] = asc2cg0[a]]. *)
Theorem cg_tables_agree (a : Z) :
  0 <= a < 256 -> unmapped a = false ->
  (e ← at_index asc2ebc0 a; at_index ebc2cg0 e) = at_index asc2cg0 a.
Proof.
  intros Ha Hm.
  assert (Hall : forallb
    (fun a => unmapped a
              || bool_decide ((e ← at_index asc2ebc0 a; at_index ebc2cg0 e)
                              = at_index asc2cg0 a)) all_bytes = true)
      by (vm_compute; reflexivity).
    pose proof (all_bytes_forallb _ a Hall Ha) as H.
  cbv beta in H. rewrite Hm in H. apply bool_decide_eq_true in H. exact H.
Qed.

Lemma cg_tables_agree_witness :
  (e ← at_index asc2ebc0 0x41; at_index ebc2cg0 e) = at_index asc2cg0 0x41.
Proof.
  apply (cg_tables_agree 0x41); [lia | reflexivity].
Defined.

(** X4: each of the four tables has an entry for every byte, and every
    entry is itself a byte, so that a lookup never leaves the tables and
    two lookups can be chained. *)
Theorem tables_byte_valued (tbl : list Z) (i : Z) :
  tbl ∈ [asc2cg0; ebc2cg0; ebc2asc0; asc2ebc0] -> 0 <= i < 256 ->
  exists v, at_index tbl i = Some v /\ 0 <= v < 256.
Proof.
  intros Ht Hi.
  assert (H : forallb (fun t => forallb (fun i =>
                match at_index t i with
                | Some v => (0 <=? v) && (v <? 256)
                | None => false
                end) all_bytes) [asc2cg0; ebc2cg0; ebc2asc0; asc2ebc0] = true)
    by (vm_compute; reflexivity).
  rewrite forallb_forall in H. apply list_elem_of_In in Ht.
  specialize (H tbl Ht). pose proof (all_bytes_forallb _ i H Hi) as H'.
  cbv beta in H'. destruct (at_index tbl i) as [v|]; [|discriminate].
  exists v. split; [reflexivity | lia].
Qed.

Lemma tables_byte_valued_witness :
  exists v, at_index ebc2cg0 0xff = Some v /\ 0 <= v < 256.
Proof.
  apply (tables_byte_valued ebc2cg0 0xff); [|lia].
  apply list_elem_of_further, list_elem_of_here.
Defined.

End MoreTablesFacts.

(** ** The version check, continued *)

Section MoreVersionFacts.
Import Libc Version More.

Lemma isdigit_digit_value (c : ascii) :
  isdigit c = true -> 0 <= digit_value c <= 9.
Proof.
  unfold isdigit, digit_value. intros H.
  apply andb_true_iff in H as [H1 H2]. lia.
Qed.

Lemma scan_digits_nonneg (s : string) (acc : Z) :
  0 <= acc -> 0 <= fst (scan_digits s acc).
Proof.
  revert acc. induction s as [|c s IH]; intros acc Hacc; simpl; [exact Hacc|].
  destruct (isdigit c) eqn:Hc; [|exact Hacc].
  pose proof (isdigit_digit_value c Hc).
  specialize (IH (10 * acc + digit_value c) ltac:(lia)).
  destruct (scan_digits s (10 * acc + digit_value c)). exact IH.
Qed.

(** [strtoul] returns a value of [unsigned long]. *)
Lemma strtoul_range (text : string) (t : nat) :
  0 <= fst (strtoul text t) <= ULONG_MAX.
Proof.
  unfold strtoul.
  destruct (scan_sign _) as [neg sg].
  pose proof (scan_digits_nonneg
                (string_from (span isspace (string_from t text) + sg)
                             (string_from t text)) 0 ltac:(lia)) as Hv.
  destruct (scan_digits _ 0) as [v k]. simpl in Hv.
  destruct k as [|k]; simpl; [unfold ULONG_MAX; lia|].
  destruct (v >? ULONG_MAX) eqn:Hgt; [unfold ULONG_MAX; lia|].
  rewrite Z.gtb_ltb, Z.ltb_ge in Hgt.
  destruct neg; [|lia].
  pose proof (Z.mod_pos_bound (- v) (ULONG_MAX + 1) ltac:(unfold ULONG_MAX; lia)).
  lia.
Qed.

(** X5: whatever [parse_version] returns, on success or on failure, the
    three numbers it leaves in its out parameters are within 0..999. *)
Theorem parse_version_in_range (text : string) :
  in_range (snd (parse_version text)).
Proof.
  unfold parse_version, in_range.
  pose proof (strtoul_range text 0) as R1.
  destruct (strtoul text 0) as [n1 p1]. simpl in R1.
  assert (Z0 : 0 <= 0 <= MAX_VERSION) by (unfold MAX_VERSION; lia).
  destruct ((p1 =? 0)%nat || _ || (n1 >? MAX_VERSION)) eqn:C1; [simpl; auto|].
  apply orb_false_iff in C1 as [_ G1]. rewrite Z.gtb_ltb, Z.ltb_ge in G1.
  destruct (is_nul (char_at text p1)); [simpl; lia|].
  pose proof (strtoul_range text (p1 + 1)) as R2.
  destruct (strtoul text (p1 + 1)) as [n2 p2]. simpl in R2.
  destruct ((p2 =? 0)%nat || (n2 >? MAX_VERSION)) eqn:C2; [simpl; lia|].
  apply orb_false_iff in C2 as [_ G2]. rewrite Z.gtb_ltb, Z.ltb_ge in G2.
  destruct (is_nul (char_at text p2)); [simpl; lia|].
  set (t3 := (p2 + span _ (string_from p2 text))%nat).
  destruct (is_nul (char_at text t3)); [simpl; lia|].
  pose proof (strtoul_range text t3) as R3.
  destruct (strtoul text t3) as [n3 p3]. simpl in R3.
  destruct ((p3 =? t3)%nat || _ || (n3 >? MAX_VERSION)) eqn:C3; [simpl; lia|].
  apply orb_false_iff in C3 as [_ G3]. rewrite Z.gtb_ltb, Z.ltb_ge in G3.
  simpl. lia.
Qed.

(** X6: a build passes the check against its own version, and against
    every minimum that a passing minimum dominates component by component:
    if [min] is accepted and no component of [min'] is above that of [min],
    then [min'] is accepted. *)
Theorem check_min_version_monotone (build res minv minv' : string)
    (our min min' : version) :
  parse_version build = (true, our) ->
  parse_version minv = (true, min) ->
  parse_version minv' = (true, min') ->
  major min' <= major min -> minor min' <= minor min ->
  iteration min' <= iteration min ->
  check_min_version build res (Some build) = Return our
  /\ (check_min_version build res (Some minv) = Return our ->
      check_min_version build res (Some minv') = Return our).
Proof.
  intros Hb Hm Hm' H1 H2 H3.
  rewrite (check_min_version_parsed _ _ _ _ _ Hb Hb),
    (check_min_version_parsed _ _ _ _ _ Hb Hm),
    (check_min_version_parsed _ _ _ _ _ Hb Hm').
  split.
  - assert (too_old our our = false) as -> by (apply too_old_false; lia).
    reflexivity.
  - destruct (too_old our min) eqn:Ht; [discriminate|]. intros _.
    apply too_old_false in Ht.
    assert (too_old our min' = false) as -> by (apply too_old_false; lia).
    reflexivity.
Qed.

Lemma check_min_version_monotone_witness :
  check_min_version "3.6ga4" "minVersion" (Some "3.6ga4") = Return (Ver 3 6 4)
  /\ (check_min_version "3.6ga4" "minVersion" (Some "3.5alpha3") = Return (Ver 3 6 4) ->
      check_min_version "3.6ga4" "minVersion" (Some "3.4") = Return (Ver 3 6 4)).
Proof.
  apply (check_min_version_monotone "3.6ga4" "minVersion" "3.5alpha3" "3.4"
           (Ver 3 6 4) (Ver 3 5 3) (Ver 3 4 0));
    vm_compute; first [reflexivity | discriminate].
Defined.

(** *** Printing a version and reading it back *)

Lemma append_nil (b : string) : "" +:+ b = b.
Proof. reflexivity. Qed.

Lemma append_cons (x : ascii) (a b : string) : String x a +:+ b = String x (a +:+ b).
Proof. reflexivity. Qed.

Lemma string_app_assoc (a b c : string) : (a +:+ b) +:+ c = a +:+ (b +:+ c).
Proof.
  induction a as [|x a IH]; [reflexivity|]. rewrite !append_cons, IH. reflexivity.
Qed.

Lemma string_length_app (a b : string) :
  String.length (a +:+ b) = (String.length a + String.length b)%nat.
Proof.
  induction a as [|x a IH]; [reflexivity|]. rewrite append_cons. simpl.
  rewrite IH. reflexivity.
Qed.

Lemma string_from_app (p r : string) : string_from (String.length p) (p +:+ r) = r.
Proof.
  induction p as [|x p IH]; [destruct r; reflexivity|]. rewrite append_cons. exact IH.
Qed.

Lemma scan_digits_app (d r : string) (acc : Z) :
  all_digits d = true ->
  scan_digits (d +:+ r) acc =
    let '(v, k) := scan_digits d acc in
    let '(v', k') := scan_digits r v in (v', (k + k')%nat).
Proof.
  revert acc. induction d as [|c d IH]; intros acc Hd;
    rewrite ?append_nil, ?append_cons; simpl.
  - destruct (scan_digits r acc). reflexivity.
  - simpl in Hd. apply andb_true_iff in Hd as [Hc Hd]. rewrite Hc.
    rewrite (IH _ Hd).
    destruct (scan_digits d (10 * acc + digit_value c)) as [v k].
    destruct (scan_digits r v) as [v' k']. reflexivity.
Qed.

Lemma scan_digits_stop (r : string) (acc : Z) :
  starts_with_digit r = false -> scan_digits r acc = (acc, O).
Proof. destruct r as [|c r]; simpl; [reflexivity|]. intros ->. reflexivity. Qed.

Lemma pretty_N_char_digit (m : N) :
  (m < 10)%N ->
  isdigit (pretty_N_char m) = true /\ digit_value (pretty_N_char m) = Z.of_N m.
Proof.
  intros Hm.
  assert (m = 0 \/ m = 1 \/ m = 2 \/ m = 3 \/ m = 4 \/ m = 5 \/ m = 6 \/ m = 7
          \/ m = 8 \/ m = 9)%N as H by lia.
  repeat (destruct H as [-> | H]; [split; reflexivity|]). subst. split; reflexivity.
Qed.

(** The digits that [pretty_N_go x] puts in front of [s]. *)
Lemma pretty_N_go_digits (x : N) (s : string) :
  exists d, pretty_N_go x s = d +:+ s /\ all_digits d = true
            /\ ((0 < x)%N -> d <> "")
            /\ forall acc, scan_digits d acc
                  = (acc * 10 ^ Z.of_nat (String.length d) + Z.of_N x, String.length d).
Proof.
  revert s. induction (N.lt_wf_0 x) as [x _ IH]. intros s.
  destruct (decide (x = 0)%N) as [-> | Hx].
  - exists "". rewrite pretty_N_go_0. repeat split; [lia|].
    intros acc. simpl. f_equal. lia.
  - rewrite pretty_N_go_step by lia.
    destruct (IH (x `div` 10)%N ltac:(apply N.div_lt; lia)
                 (String (pretty_N_char (x `mod` 10)) s))
      as (d & Hd & Hall & _ & Hscan).
    destruct (pretty_N_char_digit (x `mod` 10)%N) as [Hdig Hval].
    { apply N.mod_lt. lia. }
    exists (d +:+ String (pretty_N_char (x `mod` 10)) "").
    split; [rewrite Hd, string_app_assoc; reflexivity|].
    assert (Hall' : all_digits (d +:+ String (pretty_N_char (x `mod` 10)) "") = true).
    { clear Hd Hscan. induction d as [|c d IHd];
        rewrite ?append_nil, ?append_cons; simpl in *.
      - rewrite Hdig. reflexivity.
      - apply andb_true_iff in Hall as [-> Hall]. simpl. apply IHd, Hall. }
    split; [exact Hall'|]. split.
    + intros _. destruct d; discriminate.
    + intros acc. rewrite (scan_digits_app _ _ _ Hall), Hscan. simpl.
      rewrite Hdig, Hval, string_length_app. simpl.
      f_equal.
      assert (Hx10 : Z.of_N x = 10 * Z.of_N (x `div` 10) + Z.of_N (x `mod` 10)).
      { change 10 with (Z.of_N 10) at 1.
        rewrite <- N2Z.inj_mul, <- N2Z.inj_add. f_equal. apply N.div_mod. lia. }
      rewrite Hx10, Nat2Z.inj_add, Z.pow_add_r by lia.
      change (10 ^ Z.of_nat 1) with 10. ring.
Qed.

(** [%d] of a number that is not negative: digits, at least one, whose
    value is the number. *)
Lemma pretty_digits (n : Z) :
  0 <= n ->
  all_digits (pretty n) = true /\ pretty n <> ""
  /\ scan_digits (pretty n) 0 = (n, String.length (pretty n)).
Proof.
  intros Hn. destruct n as [|p|p]; [repeat split; discriminate| |lia].
  change (pretty (Z.pos p)) with (pretty_N_go (N.pos p) "").
  destruct (pretty_N_go_digits (N.pos p) "") as (d & Hd & Hall & Hne & Hscan).
  assert (d +:+ "" = d) as E.
  { clear. induction d as [|c d IH]; [reflexivity|].
    rewrite append_cons, IH. reflexivity. }
  rewrite Hd, E. split; [exact Hall|]. split; [apply Hne; lia|].
  rewrite Hscan. f_equal.
Qed.

Lemma digit_not_space_sign (c : ascii) (s : string) :
  isdigit c = true ->
  isspace c = false /\ scan_sign (String c s) = (false, O) /\ is_nul c = false.
Proof.
  destruct c as [[] [] [] [] [] [] [] []]; try discriminate; intros _;
    repeat split.
Qed.

Lemma nonempty_digits (d : string) :
  all_digits d = true -> d <> "" ->
  exists c d', d = String c d' /\ isdigit c = true.
Proof.
  destruct d as [|c d']; [congruence|]. simpl. intros H _.
  apply andb_true_iff in H as [H _]. eauto.
Qed.

(** [strtoul] at the start of a printed number reads the number back. *)
Lemma strtoul_pretty (p r : string) (n : Z) :
  0 <= n <= ULONG_MAX -> starts_with_digit r = false ->
  strtoul (p +:+ pretty n +:+ r) (String.length p)
    = (n, (String.length p + String.length (pretty n))%nat).
Proof.
  intros Hn Hr. destruct (pretty_digits n ltac:(lia)) as (Hall & Hne & Hscan).
  destruct (nonempty_digits _ Hall Hne) as (c & d' & Hd & Hc).
  destruct (digit_not_space_sign c (d' +:+ r) Hc) as (Hsp & Hsg & _).
  unfold strtoul. rewrite string_from_app.
  assert (Hws : span isspace (pretty n +:+ r) = O).
  { rewrite Hd, append_cons. simpl. rewrite Hsp. reflexivity. }
  rewrite Hws. simpl string_from.
  assert (Hsign : scan_sign (pretty n +:+ r) = (false, O)).
  { rewrite Hd, append_cons. exact Hsg. }
  rewrite Hsign. simpl string_from.
  rewrite (scan_digits_app _ _ _ Hall), Hscan, (scan_digits_stop _ _ Hr).
  rewrite Hd. simpl String.length. simpl Nat.add.
  assert ((n >? ULONG_MAX) = false) as -> by (rewrite Z.gtb_ltb, Z.ltb_ge; lia).
  f_equal. lia.
Qed.

Lemma char_at_app (p r : string) :
  char_at (p +:+ r) (String.length p)
    = match r with String c _ => c | EmptyString => zero end.
Proof. unfold char_at. rewrite string_from_app. reflexivity. Qed.

Lemma append_empty (d : string) : d +:+ "" = d.
Proof. induction d as [|c d IH]; [reflexivity|]. rewrite append_cons, IH. reflexivity. Qed.

(** X7: printing and parsing a version.  The string that [main] sends
    as the version in its [hello] event, the three numbers printed with
    [%d.%d.%d], is parsed by [parse_version] back into the same three
    numbers, for all numbers within 0..999. *)
Theorem parse_version_hello (v : version) :
  in_range v -> parse_version (hello_version v) = (true, v).
Proof.
  destruct v as [a b c]. unfold in_range, hello_version, MAX_VERSION. simpl.
  intros (Ha & Hb & Hc).
  destruct (pretty_digits a ltac:(lia)) as (HallA & HneA & _).
  destruct (pretty_digits b ltac:(lia)) as (HallB & HneB & _).
  destruct (pretty_digits c ltac:(lia)) as (HallC & HneC & _).
  destruct (nonempty_digits _ HallA HneA) as (ca & A' & HA & Hca).
  destruct (nonempty_digits _ HallC HneC) as (cc & C' & HC & Hcc).
  destruct (nonempty_digits _ HallB HneB) as (cb & B' & HB & Hcb).
  set (A := pretty a) in *. set (B := pretty b) in *. set (C := pretty c) in *.
  set (text := A +:+ "." +:+ B +:+ "." +:+ C).
  assert (U : ULONG_MAX = 18446744073709551615) by reflexivity.
  (* the major number *)
  assert (S1 : strtoul text O = (a, String.length A)).
  { exact (strtoul_pretty "" ("." +:+ B +:+ "." +:+ C) a ltac:(lia) eq_refl). }
  assert (K1 : char_at text (String.length A) = "."%char).
  { exact (char_at_app A ("." +:+ B +:+ "." +:+ C)). }
  (* the minor number *)
  assert (T2 : text = (A +:+ ".") +:+ B +:+ "." +:+ C).
  { unfold text. rewrite string_app_assoc. reflexivity. }
  assert (L2 : String.length (A +:+ ".") = (String.length A + 1)%nat).
  { rewrite string_length_app. reflexivity. }
  assert (S2 : strtoul text (String.length A + 1)
               = (b, (String.length A + 1 + String.length B)%nat)).
  { rewrite T2, <- L2.
    exact (strtoul_pretty (A +:+ ".") ("." +:+ C) b ltac:(lia) eq_refl). }
  set (p2 := (String.length A + 1 + String.length B)%nat) in *.
  assert (T3 : text = ((A +:+ ".") +:+ B) +:+ "." +:+ C).
  { rewrite T2. rewrite (string_app_assoc (A +:+ ".") B). reflexivity. }
  assert (L3 : String.length ((A +:+ ".") +:+ B) = p2).
  { rewrite string_length_app, L2. reflexivity. }
  assert (K2 : char_at text p2 = "."%char).
  { rewrite T3, <- L3. exact (char_at_app _ ("." +:+ C)). }
  assert (F2 : string_from p2 text = "." +:+ C).
  { rewrite T3, <- L3. apply string_from_app. }
  (* the iteration *)
  assert (T4 : text = (((A +:+ ".") +:+ B) +:+ ".") +:+ C +:+ "").
  { rewrite T3, append_empty, (string_app_assoc ((A +:+ ".") +:+ B)). reflexivity. }
  assert (L4 : String.length (((A +:+ ".") +:+ B) +:+ ".") = (p2 + 1)%nat).
  { rewrite string_length_app, L3. reflexivity. }
  assert (K3 : char_at text (p2 + 1) = cc).
  { rewrite T4, <- L4, char_at_app, append_empty, HC. reflexivity. }
  assert (S3 : strtoul text (p2 + 1) = (c, (p2 + 1 + String.length C)%nat)).
  { rewrite T4, <- L4.
    exact (strtoul_pretty (((A +:+ ".") +:+ B) +:+ ".") "" c ltac:(lia) eq_refl). }
  assert (K4 : char_at text (p2 + 1 + String.length C) = zero).
  { assert (text = ((((A +:+ ".") +:+ B) +:+ ".") +:+ C) +:+ "") as ->.
    { rewrite T4 at 1. rewrite (string_app_assoc _ C ""). reflexivity. }
    rewrite <- L4, <- string_length_app. apply char_at_app. }
  assert (LA : (0 < String.length A)%nat) by (rewrite HA; simpl; lia).
  assert (LC : (0 < String.length C)%nat) by (rewrite HC; simpl; lia).
  destruct (digit_not_space_sign cc "" Hcc) as (_ & _ & Hnul).
  unfold parse_version. fold text.
  rewrite S1, K1.
  assert (((String.length A =? 0)%nat) = false) as -> by (apply Nat.eqb_neq; lia).
  assert ((a >? MAX_VERSION) = false) as ->
    by (rewrite Z.gtb_ltb, Z.ltb_ge; unfold MAX_VERSION; lia).
  simpl.
  rewrite S2.
  assert (((p2 =? 0)%nat) = false) as -> by (apply Nat.eqb_neq; unfold p2; lia).
  assert ((b >? MAX_VERSION) = false) as ->
    by (rewrite Z.gtb_ltb, Z.ltb_ge; unfold MAX_VERSION; lia).
  rewrite K2. simpl.
  assert (Sp : span (fun c => negb (isdigit c) && negb (is_nul c)) ("." +:+ C) = 1%nat).
  { rewrite HC, append_cons. simpl. rewrite Hcc. reflexivity. }
  rewrite F2, Sp.
  rewrite K3, Hnul, S3, K4.
  assert (((p2 + 1 + String.length C =? p2 + 1)%nat) = false) as ->
    by (apply Nat.eqb_neq; lia).
  assert ((c >? MAX_VERSION) = false) as ->
    by (rewrite Z.gtb_ltb, Z.ltb_ge; unfold MAX_VERSION; lia).
  reflexivity.
Qed.

Lemma parse_version_hello_witness :
  parse_version (hello_version (Ver 3 6 4)) = (true, Ver 3 6 4).
Proof.
  apply (parse_version_hello (Ver 3 6 4)). unfold in_range, MAX_VERSION. simpl. lia.
Defined.

End MoreVersionFacts.

(** ** The connection and statistics tracker, continued *)

Section MoreTrackerFacts.
Import Ui Tracker More.

(** X8: the names of the connection states are pairwise different, so
    the [state] attribute of a [connection] event tells the state. *)
Theorem cstate_name_inj (a b : cstate) :
  cstate_name a = cstate_name b -> a = b.
Proof. destruct a, b; intros H; first [reflexivity | discriminate H]. Qed.

Lemma cstate_name_inj_witness : CONNECTED_NVT = CONNECTED_NVT.
Proof. apply (cstate_name_inj CONNECTED_NVT CONNECTED_NVT). reflexivity. Defined.

(** What the three kinds of state change do, in order. *)
Lemma b3270_connect_disconnect (e : engine) (s : tracker) :
  old_cstate s <> NOT_CONNECTED -> cstate_of e = NOT_CONNECTED ->
  stats_ioid s <> NULL_IOID ->
  effects (b3270_connect e s)
    = effects s ++ RemoveTimeOut (stats_ioid s)
        :: (if stats_changed e s then [Leaf (current_stats_event e)] else [])
        ++ [Leaf (connection_event e)]
  /\ stats_ioid (b3270_connect e s) = NULL_IOID.
Proof.
  intros Ho Hn Hio.
  destruct s as [b r bs rs io old nx fx], e as [c h nb nr nbs nrs].
  simpl in *. subst c.
  unfold b3270_connect. simpl.
  rewrite bool_decide_eq_false_2 by congruence.
  unfold final_stats. simpl.
  assert ((io =? NULL_IOID) = false) as -> by (apply Z.eqb_neq; exact Hio).
  simpl. unfold stats_changed, current_stats_event, connection_event. simpl.
  destruct (negb (b =? nb) || negb (r =? nr) || negb (bs =? nbs) || negb (rs =? nrs));
    simpl; rewrite <- ?app_assoc; split; reflexivity.
Qed.

Lemma b3270_connect_connect (e : engine) (s : tracker) :
  old_cstate s = NOT_CONNECTED -> cstate_of e <> NOT_CONNECTED ->
  stats_ioid s = NULL_IOID ->
  effects (b3270_connect e s)
    = effects s ++ [Leaf (connection_event e); CtlrErase true;
                    Leaf (stats_event 0 0 0 0); AddTimeOut STATS_POLL (next_ioid s)]
  /\ stats_ioid (b3270_connect e s) = next_ioid s.
Proof.
  intros Ho Hn Hio.
  destruct s as [b r bs rs io old nx fx], e as [c h nb nr nbs nrs].
  simpl in *. subst old io.
  unfold b3270_connect. simpl.
  rewrite bool_decide_eq_false_2 by exact Hn.
  unfold final_stats. simpl. rewrite (bool_decide_eq_false_2 _ Hn). simpl.
  unfold tell_gui. simpl. rewrite (bool_decide_eq_false_2 _ Hn). simpl.
  unfold initial_stats. simpl. rewrite (bool_decide_eq_false_2 _ Hn). simpl.
  unfold connection_event. simpl. rewrite (bool_decide_eq_false_2 _ Hn).
  rewrite <- ?app_assoc. split; reflexivity.
Qed.

Lemma b3270_connect_between (e : engine) (s : tracker) :
  old_cstate s <> NOT_CONNECTED -> cstate_of e <> NOT_CONNECTED ->
  cstate_of e <> old_cstate s -> stats_ioid s <> NULL_IOID ->
  effects (b3270_connect e s) = effects s ++ [Leaf (connection_event e)]
  /\ stats_ioid (b3270_connect e s) = stats_ioid s.
Proof.
  intros Ho Hn Hc Hio.
  destruct s as [b r bs rs io old nx fx], e as [c h nb nr nbs nrs].
  simpl in *.
  unfold b3270_connect. simpl.
  rewrite bool_decide_eq_false_2 by exact Hc.
  unfold final_stats. simpl. rewrite (bool_decide_eq_false_2 _ Hn). simpl.
  unfold tell_gui. simpl. rewrite (bool_decide_eq_false_2 _ Hn). simpl.
  rewrite (bool_decide_eq_false_2 _ Ho).
  unfold initial_stats. simpl. rewrite (bool_decide_eq_false_2 _ Hn). simpl.
  assert ((io =? NULL_IOID) = false) as -> by (apply Z.eqb_neq; exact Hio).
  unfold connection_event. simpl. rewrite (bool_decide_eq_false_2 _ Hn).
  split; reflexivity.
Qed.

(** X10: the order of effects at a state change.  On a disconnect the
    timer is cancelled first, then come the final statistics (if a counter
    changed) and then the [connection] event.  On a connect the
    [connection] event comes first, then the screen is erased, the initial
    statistics are sent and the timer is started.  A change between two
    connected states emits the [connection] event alone: the screen is
    erased only when a connection starts. *)
Theorem b3270_connect_effects (e : engine) (s : tracker) :
  well_armed s ->
  (old_cstate s <> NOT_CONNECTED -> cstate_of e = NOT_CONNECTED ->
   emitted s (b3270_connect e s)
     = RemoveTimeOut (stats_ioid s)
         :: (if stats_changed e s then [Leaf (current_stats_event e)] else [])
         ++ [Leaf (connection_event e)])
  /\ (old_cstate s = NOT_CONNECTED -> cstate_of e <> NOT_CONNECTED ->
      emitted s (b3270_connect e s)
        = [Leaf (connection_event e); CtlrErase true;
           Leaf (stats_event 0 0 0 0); AddTimeOut STATS_POLL (next_ioid s)])
  /\ (old_cstate s <> NOT_CONNECTED -> cstate_of e <> NOT_CONNECTED ->
      cstate_of e <> old_cstate s ->
      emitted s (b3270_connect e s) = [Leaf (connection_event e)]).
Proof.
  intros [Hio _]. split; [|split].
  - intros Ho Hn. apply emitted_app.
    apply b3270_connect_disconnect; tauto.
  - intros Ho Hn. apply emitted_app.
    apply b3270_connect_connect; tauto.
  - intros Ho Hn Hc. apply emitted_app.
    apply b3270_connect_between; tauto.
Qed.

Lemma b3270_connect_effects_witness :
  emitted initial (b3270_connect (Engine RESOLVING (Some "host") 0 0 0 0) initial)
    = [Leaf (connection_event (Engine RESOLVING (Some "host") 0 0 0 0));
       CtlrErase true; Leaf (stats_event 0 0 0 0); AddTimeOut STATS_POLL 1].
Proof.
  apply (b3270_connect_effects (Engine RESOLVING (Some "host") 0 0 0 0) initial).
  - apply well_armed_initial.
  - reflexivity.
  - discriminate.
Defined.

(** *** The snapshot and the events *)

Lemma reports_sound (s s' : tracker) (fs : list effect) :
  snapshot_reported s -> reports s s' fs -> snapshot_reported s'.
Proof.
  unfold snapshot_reported, reports, snapshot.
  intros Hs [He [[Hnone Hsnap] | [pre Hpre]]]; rewrite He, events_tagged_app.
  - rewrite Hnone, app_nil_r. inversion Hsnap as [[H0 H1 H2 H3]].
    rewrite H0, H1, H2, H3. exact Hs.
  - rewrite Hpre, app_assoc, last_snoc. reflexivity.
Qed.

Lemma reports_trans (s1 s2 s3 : tracker) (f g : list effect) :
  reports s1 s2 f -> reports s2 s3 g -> reports s1 s3 (f ++ g).
Proof.
  unfold reports. intros [E1 H1] [E2 H2]. split.
  - rewrite E2, E1, app_assoc. reflexivity.
  - rewrite events_tagged_app.
    destruct H2 as [[N2 S2] | [pre2 P2]].
    + rewrite N2, app_nil_r. destruct H1 as [[N1 S1] | [pre1 P1]].
      * left. split; [exact N1 | congruence].
      * right. exists pre1. rewrite P1. unfold snapshot in S2.
        inversion S2. reflexivity.
    + right. exists (events_tagged "stats" f ++ pre2).
      rewrite P2, app_assoc. reflexivity.
Qed.

Lemma reports_nothing (s : tracker) : reports s s [].
Proof. split; [symmetry; apply app_nil_r | left; split; reflexivity]. Qed.

Lemma final_stats_reports (e : engine) (s : tracker) :
  exists fs, reports s (final_stats e s) fs.
Proof.
  destruct s as [b r bs rs io old nx fx], e as [c h nb nr nbs nrs].
  unfold final_stats, reports, snapshot. simpl.
  destruct (bool_decide (c = NOT_CONNECTED) && negb (io =? NULL_IOID)); simpl.
  - unfold stats_changed. simpl.
    destruct (negb (b =? nb) || negb (r =? nr) || negb (bs =? nbs) || negb (rs =? nrs));
      simpl; eexists; (split; [rewrite <- ?app_assoc; reflexivity|]).
    + right. exists []. reflexivity.
    + left. split; reflexivity.
  - exists []. split; [symmetry; apply app_nil_r | left; split; reflexivity].
Qed.

Lemma tell_gui_reports (e : engine) (s : tracker) :
  exists fs, reports s (tell_gui e s) fs.
Proof.
  destruct s as [b r bs rs io old nx fx], e as [c h nb nr nbs nrs].
  unfold tell_gui, reports, snapshot. simpl.
  repeat (case_bool_decide; simpl);
    eexists; (split; [rewrite <- ?app_assoc; reflexivity|]);
    left; split; reflexivity.
Qed.

Lemma initial_stats_reports (e : engine) (s : tracker) :
  exists fs, reports s (initial_stats e s) fs.
Proof.
  destruct s as [b r bs rs io old nx fx], e as [c h nb nr nbs nrs].
  unfold initial_stats, reports, snapshot. simpl.
  destruct (negb (bool_decide (c = NOT_CONNECTED)) && (io =? NULL_IOID)); simpl.
  - eexists. split; [rewrite <- ?app_assoc; reflexivity|].
    right. exists []. reflexivity.
  - exists []. split; [symmetry; apply app_nil_r | left; split; reflexivity].
Qed.

Lemma step_reports (s : tracker) (i : input) :
  exists fs, reports s (step s i) fs.
Proof.
  destruct i as [e|e]; simpl.
  - unfold b3270_connect. case_bool_decide; [exists []; apply reports_nothing|].
    destruct (final_stats_reports e s) as (f1 & R1).
    destruct (tell_gui_reports e (final_stats e s)) as (f2 & R2).
    destruct (initial_stats_reports e (tell_gui e (final_stats e s))) as (f3 & R3).
    exists ((f1 ++ f2) ++ f3).
    pose proof (reports_trans _ _ _ _ _ (reports_trans _ _ _ _ _ R1 R2) R3) as R.
    exact R.
  - destruct s as [b r bs rs io old nx fx], e as [c h nb nr nbs nrs].
    unfold stats_poll, reports, snapshot, stats_changed. simpl.
    destruct (negb (b =? nb) || negb (r =? nr) || negb (bs =? nbs) || negb (rs =? nrs));
      simpl; eexists; (split; [rewrite <- ?app_assoc; reflexivity|]).
    + right. exists []. reflexivity.
    + left. split; reflexivity.
Qed.

(** X11: the snapshot that the statistics are compared with is always
    what the last [stats] event reported, and four zeros as long as no
    [stats] event has been sent: after any sequence of notifications and
    ticks from the start of the program. *)
Theorem snapshot_is_last_report (l : list input) :
  snapshot_reported (run initial l).
Proof.
  assert (H : forall s, snapshot_reported s -> snapshot_reported (run s l)).
  { induction l as [|i l IH]; intros s Hs; [exact Hs|].
    unfold run. simpl foldl. fold (run (step s i) l). apply IH.
    destruct (step_reports s i) as (fs & R). exact (reports_sound _ _ _ Hs R). }
  apply H. reflexivity.
Qed.

End MoreTrackerFacts.

(** ** The statistics timer *)

Section TimerFacts.
Import Ui Tracker More.

(** *** The timer table *)

Lemma stats_poll_timer (e : engine) (s : tracker) :
  effects (stats_poll e s)
    = effects s ++ (if stats_changed e s then [Leaf (current_stats_event e)] else [])
        ++ [AddTimeOut STATS_POLL (next_ioid s)]
  /\ stats_ioid (stats_poll e s) = next_ioid s
  /\ old_cstate (stats_poll e s) = old_cstate s.
Proof.
  destruct s as [b r bs rs io old nx fx], e as [c h nb nr nbs nrs].
  unfold stats_poll, current_stats_event.
  destruct (stats_changed _ _); simpl; rewrite <- ?app_assoc; repeat split.
Qed.

Lemma one_timer_notify (e : engine) (s : tracker) (tbl : list Z) :
  one_timer s tbl ->
  one_timer (b3270_connect e s) (timers tbl (emitted s (b3270_connect e s))).
Proof.
  intros [Hw ->]. split; [apply well_armed_b3270_connect, Hw|].
  destruct Hw as [Hio Hnx]. rewrite b3270_connect_old_cstate.
  destruct (decide (cstate_of e = old_cstate s)) as [Hc|Hc].
  { rewrite b3270_connect_same by exact Hc.
    rewrite (emitted_app s s []) by (symmetry; apply app_nil_r).
    rewrite Hc. reflexivity. }
  destruct (decide (cstate_of e = NOT_CONNECTED)) as [Hn|Hn];
    destruct (decide (old_cstate s = NOT_CONNECTED)) as [Ho|Ho];
    try congruence.
  - destruct (b3270_connect_disconnect e s Ho Hn) as [He Hi]; [tauto|].
    rewrite (emitted_app _ _ _ He).
    rewrite (bool_decide_eq_true_2 _ Hn).
    rewrite (bool_decide_eq_false_2 _ Ho).
    unfold timers. destruct (stats_changed e s); simpl; rewrite Z.eqb_refl; reflexivity.
  - destruct (b3270_connect_connect e s Ho Hn) as [He Hi]; [tauto|].
    rewrite (emitted_app _ _ _ He), Hi.
    rewrite (bool_decide_eq_false_2 _ Hn).
    rewrite (bool_decide_eq_true_2 _ Ho). reflexivity.
  - destruct (b3270_connect_between e s Ho Hn Hc) as [He Hi]; [tauto|].
    rewrite (emitted_app _ _ _ He), Hi.
    rewrite (bool_decide_eq_false_2 _ Hn).
    rewrite (bool_decide_eq_false_2 _ Ho). reflexivity.
Qed.

Lemma one_timer_tick (e : engine) (s : tracker) (id : Z) (tbl : list Z) :
  one_timer s (id :: tbl) ->
  one_timer (stats_poll e s) (timers tbl (emitted s (stats_poll e s))).
Proof.
  intros [Hw Ht].
  destruct (decide (old_cstate s = NOT_CONNECTED)) as [Ho|Ho].
  { rewrite (bool_decide_eq_true_2 _ Ho) in Ht. discriminate Ht. }
  rewrite (bool_decide_eq_false_2 _ Ho) in Ht. injection Ht as -> ->.
  destruct (stats_poll_timer e s) as (He & Hi & Hold).
  split.
  - apply well_armed_stats_poll; [exact Hw|]. destruct Hw as [Hio _]. tauto.
  - rewrite (emitted_app _ _ _ He), Hi, Hold.
    rewrite (bool_decide_eq_false_2 _ Ho).
    unfold timers. destruct (stats_changed e s); reflexivity.
Qed.

Lemma run_timers_one_timer (l : list input) (s s' : tracker) (tbl tbl' : list Z) :
  one_timer s tbl -> run_timers s tbl l = Some (s', tbl') ->
  s' = run s l /\ one_timer s' tbl'.
Proof.
  revert s tbl. induction l as [|i l IH]; intros s tbl Hinv; simpl.
  - intros [= <- <-]. auto.
  - unfold run. simpl foldl. fold (run (step s i) l).
    destruct i as [e|e].
    + apply IH. simpl. apply one_timer_notify, Hinv.
    + destruct tbl as [|id tbl0]; [discriminate|].
      apply IH. simpl. apply (one_timer_tick e s id), Hinv.
Qed.

(** X9: one statistics timer is pending while a connection is up, and
    none otherwise.  From the start of the program, over any sequence of
    notifications and of ticks that the timer table allows (a tick is the
    firing of a pending timer), the table of pending timers holds exactly
    the timer that [stats_ioid] names when the last state observed is a
    connected one, and is empty when it is [NOT_CONNECTED]: every firing is
    followed by a new [AddTimeOut], and a disconnect removes the timer. *)
Theorem stats_timer_pending (l : list input) (s : tracker) (tbl : list Z) :
  run_timers initial [] l = Some (s, tbl) ->
  s = run initial l
  /\ tbl = (if bool_decide (old_cstate s = NOT_CONNECTED) then [] else [stats_ioid s])
  /\ (old_cstate s <> NOT_CONNECTED -> stats_ioid s <> NULL_IOID).
Proof.
  intros H.
  destruct (run_timers_one_timer l initial s [] tbl) as (Hs & [Hio _] & Ht).
  - split; [apply well_armed_initial | reflexivity].
  - exact H.
  - split; [exact Hs|]. split; [exact Ht | tauto].
Qed.

(** A connection and two ticks: the third timer is the one pending. *)
Lemma stats_timer_pending_witness :
  let l := [Notify (Engine RESOLVING (Some "host") 0 0 0 0);
            Tick (Engine CONNECTED_3270 (Some "host") 120 2 40 1);
            Tick (Engine CONNECTED_3270 (Some "host") 120 2 40 1)] in
  run_timers initial [] l = Some (run initial l, [3])
  /\ [3] = [stats_ioid (run initial l)].
Proof.
  intros l.
  assert (H : run_timers initial [] l = Some (run initial l, [3]))
    by (vm_compute; reflexivity).
  split; [exact H|].
  destruct (stats_timer_pending l _ _ H) as (_ & Ht & _).
  rewrite bool_decide_eq_false_2 in Ht by (vm_compute; discriminate).
  exact Ht.
Defined.

End TimerFacts.

(** ** The security tracker *)

Section SecureFacts.
Import Ui Secure.

#[local] Arguments secure_of : simpl never.
#[local] Arguments ssl_event : simpl never.

Lemma secure_of_ssl_event (n : net) :
  secure_of (ssl_event n) = Some (net_secure_connection n).
Proof. destruct n as [[] [] [x|] [y|]]; reflexivity. Qed.

Lemma verified_ssl_event (n : net) :
  is_Some (attr "verified" (ssl_event n)) <-> attr "secure" (ssl_event n) = Some "true".
Proof.
  destruct n as [[] [] [x|] [y|]]; vm_compute; split; intros H;
    first [reflexivity | discriminate H | (eexists; reflexivity)
          | (destruct H as [? H]; discriminate H)].
Qed.

Lemma omap_cons_unfold {A B : Type} (f : A -> option B) (x : A) (l : list A) :
  omap f (x :: l) = match f x with Some y => y :: omap f l | None => omap f l end.
Proof. reflexivity. Qed.

Lemma secure_run_events (l : list net) (s : secure_st) :
  exists new k,
    ssl_out (secure_run s l) = ssl_out s ++ new
    /\ omap secure_of new = alternating (negb (is_secure s)) k
    /\ length new = k
    /\ Forall (fun ev => is_Some (attr "verified" ev)
                         <-> attr "secure" ev = Some "true") new.
Proof.
  revert s. induction l as [|n l IH]; intros s.
  - exists [], O. repeat split; [symmetry; apply app_nil_r | constructor].
  - unfold secure_run. simpl foldl. fold (secure_run (b3270_secure n s) l).
    destruct (decide (net_secure_connection n = is_secure s)) as [Hn|Hn];
      unfold b3270_secure;
      [rewrite bool_decide_eq_true_2 by exact Hn
      |rewrite bool_decide_eq_false_2 by exact Hn].
    + apply IH.
    + assert (Hflip : net_secure_connection n = negb (is_secure s)).
      { clear IH. destruct (net_secure_connection n), (is_secure s);
          first [reflexivity | (exfalso; apply Hn; reflexivity)]. }
      destruct (IH (SecureSt (net_secure_connection n) (ssl_out s ++ [ssl_event n])))
        as (new & k & Hout & Hflags & Hlen & Hver).
      simpl in *.
      exists (ssl_event n :: new), (S k).
      split; [rewrite Hout, <- app_assoc; reflexivity|].
      split; [|split].
      * rewrite omap_cons_unfold, secure_of_ssl_event, Hflags, Hflip.
        simpl. rewrite negb_involutive. reflexivity.
      * simpl. rewrite Hlen. reflexivity.
      * constructor; [apply verified_ssl_event | exact Hver].
Qed.

Lemma secure_run_snoc (s : secure_st) (l : list net) (n : net) :
  secure_run s (l ++ [n]) = b3270_secure n (secure_run s l).
Proof. unfold secure_run. rewrite foldl_app. reflexivity. Qed.

Lemma is_secure_b3270_secure (n : net) (s : secure_st) :
  is_secure (b3270_secure n s) = net_secure_connection n.
Proof.
  unfold b3270_secure. case_bool_decide as H; [symmetry; exact H | reflexivity].
Qed.

(** The static [is_secure] is what the last notification said. *)
Lemma is_secure_last (l : list net) (s : secure_st) :
  is_secure (secure_run s l)
    = default (is_secure s) (net_secure_connection <$> last l).
Proof.
  induction l as [|n l _] using rev_ind; [reflexivity|].
  rewrite secure_run_snoc, is_secure_b3270_secure, last_snoc. reflexivity.
Qed.

(** X12: the [ssl] events are edge triggered.  From the start of the
    program, a notification sends an [ssl] event exactly when the
    connection's security differs from what the notification before it saw
    (not secure, for the first one), and the event is the one for the
    current answers of the network layer.  So the [secure] attributes of the
    events sent read true, false, true, ... in turn, beginning with true; and
    an event carries a [verified] attribute exactly when its [secure]
    attribute is true. *)
Theorem ssl_events_edge_triggered (l : list net) (n : net) :
  ssl_out (secure_run secure_initial (l ++ [n]))
    = ssl_out (secure_run secure_initial l)
        ++ (if bool_decide (net_secure_connection n
                            = default false (net_secure_connection <$> last l))
            then [] else [ssl_event n])
  /\ omap secure_of (ssl_out (secure_run secure_initial l))
       = alternating true (length (ssl_out (secure_run secure_initial l)))
  /\ Forall (fun ev => is_Some (attr "verified" ev) <-> attr "secure" ev = Some "true")
            (ssl_out (secure_run secure_initial l)).
Proof.
  split.
  - rewrite secure_run_snoc. unfold b3270_secure at 1.
    rewrite (is_secure_last l secure_initial).
    change (is_secure secure_initial) with false.
    case_bool_decide; [symmetry; apply app_nil_r | reflexivity].
  - destruct (secure_run_events l secure_initial)
      as (new & k & Hout & Hflags & Hlen & Hver).
    simpl in Hout, Hflags. rewrite Hout, Hlen. split; assumption.
Qed.

End SecureFacts.

(** ** The xterm text escape *)

Section XtermFacts.
Import Ui Xterm.

(** X13: what each code of the xterm text escape sends.  Code 1 sends
    one [icon-name] event, code 2 one [window-title] event, code 0 the
    [icon-name] event and then the [window-title] event (what code 1 and
    then code 2 do), code 50 one [font] event, and any other code nothing;
    every event sent carries the text, and the events sent before stay. *)
Theorem xterm_text_gui_codes (code : Z) (text : string) (out : list event) :
  (exists new,
     xterm_text_gui code text out = out ++ new
     /\ tag <$> new =
          (if code =? 0 then ["icon-name"; "window-title"]
           else if code =? 1 then ["icon-name"]
           else if code =? 2 then ["window-title"]
           else if code =? 50 then ["font"]
           else [])
     /\ Forall (fun ev => attr "text" ev = Some text) new)
  /\ xterm_text_gui 0 text out = xterm_text_gui 2 text (xterm_text_gui 1 text out).
Proof.
  split; [|reflexivity].
  unfold xterm_text_gui.
  destruct (code =? 0) eqn:H0; [apply Z.eqb_eq in H0; subst code; simpl;
    eexists; split; [rewrite <- app_assoc; reflexivity|];
    split; [reflexivity | repeat constructor]|].
  destruct (code =? 1) eqn:H1; [apply Z.eqb_eq in H1; subst code; simpl;
    eexists; split; [reflexivity|]; split; [reflexivity | repeat constructor]|].
  destruct (code =? 2) eqn:H2; [apply Z.eqb_eq in H2; subst code; simpl;
    eexists; split; [reflexivity|]; split; [reflexivity | repeat constructor]|].
  simpl.
  destruct (code =? 50) eqn:H50.
  - eexists. split; [reflexivity|]. split; [reflexivity | repeat constructor].
  - exists []. split; [symmetry; apply app_nil_r|]. split; [reflexivity | constructor].
Qed.

End XtermFacts.

(** ** The Trace action *)

Section TraceFacts.
Import TraceAction.

Variable do_toggle_TRACING : trace_st -> trace_st.
Variable trace_set_trace_file : string -> trace_st -> trace_st.

Ltac decide_all :=
  repeat match goal with
         | H : context [bool_decide ?P] |- _ => destruct (bool_decide P)
         | |- context [bool_decide ?P] => destruct (bool_decide P)
         end.

Lemma on_is_not_off (a : string) :
  strcasecmp_eq a "On" = true -> strcasecmp_eq a "Off" = false.
Proof.
  destruct a as [|x [|y [|z r]]]; cbn; intros H; decide_all; simpl in *;
    congruence.
Qed.

(** X14: asking for the state tracing already has changes nothing.
    [Trace(Off)] while tracing is off, and [Trace(On)] without a file name
    while tracing is on, succeed and leave the state as it was, with no
    output: neither the toggle nor the trace file is touched.  The keyword
    is read without regard to case. *)
Theorem Trace_action_same_state (argv0 : string) (s : trace_st) :
  (strcasecmp_eq argv0 "Off" = true -> tracing s = false ->
   Trace_action do_toggle_TRACING trace_set_trace_file [argv0] s = (true, s))
  /\ (strcasecmp_eq argv0 "On" = true -> tracing s = true ->
      Trace_action do_toggle_TRACING trace_set_trace_file [argv0] s = (true, s)).
Proof.
  split; intros Hk Ht; unfold Trace_action, check_argc; simpl; rewrite ?Hk, ?Ht.
  - reflexivity.
  - rewrite (on_is_not_off _ Hk). simpl. rewrite ?Ht. reflexivity.
Qed.

(** X15: a call of [Trace] that fails has done nothing but report one
    error: whatever the arguments, when the action returns false the state
    is the one before the call with one more pop-up, so neither the toggle
    nor the trace file name was touched on the way to the failure. *)
Theorem Trace_action_failure (argv : list string) (s s' : trace_st) :
  Trace_action do_toggle_TRACING trace_set_trace_file argv s = (false, s') ->
  exists msg, s' = t_popup msg s.
Proof.
  unfold Trace_action, check_argc. intros H.
  destruct ((0 <=? Z.of_nat (length argv)) && (Z.of_nat (length argv) <=? 2));
    cbv iota beta in H; simpl (_ <? 0) in H; cbv iota in H;
    [|injection H as <-; eauto].
  destruct argv as [|argv0 rest].
  - destruct (_ && _) in H; discriminate H.
  - destruct (strcasecmp_eq argv0 "Off").
    + destruct (1 <? _) in H; [injection H as <-; eauto|].
      destruct (tracing s); discriminate H.
    + destruct (strcasecmp_eq argv0 "On"); simpl negb in H; cbv iota in H;
        [|injection H as <-; eauto].
      destruct rest as [|argv1 rest].
      * destruct (tracing s); discriminate H.
      * destruct (tracing s); [injection H as <-; eauto|].
        destruct (tracing (trace_set_trace_file argv1 s)); discriminate H.
Qed.

End TraceFacts.

Section TraceWitness.
Import TraceAction.

(** [Trace(OFF)] with tracing off, where the toggle would flip the flag. *)
Lemma Trace_action_same_state_witness :
  Trace_action (fun s => TraceSt (negb (tracing s)) (tracefile_name s)
                                 (t_popups s) (t_outputs s))
               (fun f s => TraceSt (tracing s) (Some f) (t_popups s) (t_outputs s))
               ["OFF"] (TraceSt false None [] [])
  = (true, TraceSt false None [] []).
Proof.
  apply (proj1 (Trace_action_same_state
           (fun s => TraceSt (negb (tracing s)) (tracefile_name s)
                             (t_popups s) (t_outputs s))
           (fun f s => TraceSt (tracing s) (Some f) (t_popups s) (t_outputs s))
           "OFF" (TraceSt false None [] []))); reflexivity.
Defined.

(** [Trace(On,file)] with tracing on is refused, and the file name set
    before stays. *)
Lemma Trace_action_failure_witness :
  exists msg,
    TraceSt true (Some "a.trc") ["Trace: cannot specify filename when tracing is already on"] []
    = t_popup msg (TraceSt true (Some "a.trc") [] []).
Proof.
  apply (Trace_action_failure
           (fun s => TraceSt (negb (tracing s)) (tracefile_name s)
                             (t_popups s) (t_outputs s))
           (fun f s => TraceSt (tracing s) (Some f) (t_popups s) (t_outputs s))
           ["On"; "b.trc"] (TraceSt true (Some "a.trc") [] [])).
  reflexivity.
Defined.

End TraceWitness.

(** ** The Model action, without a connection *)

Section MoreModelFacts.
Import Libc Actions More.

Variable set_rows_cols : Z -> Z -> Z -> emu -> emu.
Variable ctlr_reinit : Z -> emu -> emu.
Variable MODEL_CHANGE : Z.
Variable screen_init : emu -> emu.
Variable ctlr_erase : bool -> emu -> emu.

(** The test on the first parameter, as [Model_action] writes it. *)
Lemma first_parameter_checked (argv0 : string) :
  negb (String.length argv0 =? 6)%nat
  || negb (String.eqb (substring 0 3 argv0) "327")
  || negb (strchr "89" (char_at argv0 3))
  || negb (bool_decide (char_at argv0 4 = "-"%char))
  || negb (strchr "2345" (char_at argv0 5)) = false ->
  argv0 ∈ model_names.
Proof.
  intros H. repeat (apply orb_false_iff in H as [H ?]).
  repeat match goal with
         | H : negb _ = false |- _ => apply negb_false_iff in H
         end.
  destruct argv0 as [|c0 [|c1 [|c2 [|c3 [|c4 [|c5 [|c6 r]]]]]]]; try discriminate.
  match goal with H : String.eqb _ _ = true |- _ => apply String.eqb_eq in H; simpl in H;
    injection H as -> -> -> end.
  match goal with H : bool_decide _ = true |- _ => apply bool_decide_eq_true in H;
    unfold char_at in H; simpl in H; subst c4 end.
  unfold char_at in *; simpl in *.
  repeat match goal with
         | H : _ || _ = true |- _ => apply orb_true_iff in H as [H | H]
         | H : bool_decide _ = true |- _ => apply bool_decide_eq_true in H; subst
         | H : false = true |- _ => discriminate H
         end;
    unfold model_names; rewrite !elem_of_cons; tauto.
Qed.

(** X16: the first parameter of [Model] is one of eight names.  Without
    a connection, a call with one or two arguments whose first is not
    among [model_names] fails with the error about the first parameter and
    changes nothing else, whatever the second argument is. *)
Theorem Model_action_first_parameter (argv0 : string) (rest : list string) (s : emu) :
  (length rest <= 1)%nat -> argv0 ∉ model_names ->
  Model_action set_rows_cols ctlr_reinit MODEL_CHANGE screen_init ctlr_erase
               false (argv0 :: rest) s
  = (false, popup_an_error "Model: First parameter must be 327[89]-[2345]" s).
Proof.
  intros Hlen Hn. unfold Model_action, check_argc.
  assert ((0 <=? Z.of_nat (length (argv0 :: rest)))
          && (Z.of_nat (length (argv0 :: rest)) <=? 2) = true) as ->.
  { simpl length. apply andb_true_iff. split; apply Z.leb_le; lia. }
  cbv iota beta. change (0 <? 0) with false. cbv iota.
  destruct (negb (String.length argv0 =? 6)%nat
            || negb (String.eqb (substring 0 3 argv0) "327")
            || negb (strchr "89" (char_at argv0 3))
            || negb (bool_decide (char_at argv0 4 = "-"%char))
            || negb (strchr "2345" (char_at argv0 5))) eqn:E; [reflexivity|].
  exfalso. apply Hn, first_parameter_checked, E.
Qed.

(** [sscanf] with [%u%c%u%c] on two printed numbers around an [x]. *)
Lemma sscanf_ucuc_size (r c : Z) :
  0 <= r <= UINT_MAX -> 0 <= c <= UINT_MAX ->
  sscanf_ucuc (pretty r +:+ "x" +:+ pretty c) = (3, (r, "x"%char, c)).
Proof.
  intros Hr Hc.
  assert (U : UINT_MAX = 4294967295) by reflexivity.
  assert (UL : ULONG_MAX = 18446744073709551615) by reflexivity.
  destruct (pretty_digits r ltac:(lia)) as (HallR & HneR & _).
  destruct (pretty_digits c ltac:(lia)) as (HallC & HneC & _).
  destruct (nonempty_digits _ HallR HneR) as (cr & R' & HR & Hcr).
  destruct (nonempty_digits _ HallC HneC) as (cc & C' & HC & Hcc).
  set (R := pretty r) in *. set (C := pretty c) in *.
  set (text := R +:+ "x" +:+ C).
  assert (S1 : strtoul text O = (r, String.length R)).
  { exact (strtoul_pretty "" ("x" +:+ C) r ltac:(lia) eq_refl). }
  assert (K1 : char_at text (String.length R) = "x"%char).
  { exact (char_at_app R ("x" +:+ C)). }
  assert (T2 : text = (R +:+ "x") +:+ C +:+ "").
  { unfold text. rewrite append_empty, string_app_assoc. reflexivity. }
  assert (L2 : String.length (R +:+ "x") = (String.length R + 1)%nat).
  { rewrite string_length_app. reflexivity. }
  assert (S2 : strtoul text (String.length R + 1)
               = (c, (String.length R + 1 + String.length C)%nat)).
  { rewrite T2, <- L2. exact (strtoul_pretty (R +:+ "x") "" c ltac:(lia) eq_refl). }
  assert (K2 : char_at text (String.length R + 1 + String.length C) = zero).
  { assert (text = ((R +:+ "x") +:+ C) +:+ "") as ->.
    { rewrite T2 at 1. rewrite (string_app_assoc _ C ""). reflexivity. }
    rewrite <- L2, <- string_length_app. apply char_at_app. }
  assert (LR : (0 < String.length R)%nat) by (rewrite HR; simpl; lia).
  assert (LC : (0 < String.length C)%nat) by (rewrite HC; simpl; lia).
  unfold sscanf_ucuc. fold text. rewrite S1.
  assert (((String.length R =? 0)%nat) = false) as -> by (apply Nat.eqb_neq; lia).
  rewrite K1. change (is_nul "x") with false. cbv iota. rewrite S2.
  assert (((String.length R + 1 + String.length C =? String.length R + 1)%nat) = false)
    as -> by (apply Nat.eqb_neq; lia).
  rewrite K2. change (is_nul zero) with true. cbv iota.
  rewrite !Z.mod_small by lia. reflexivity.
Qed.

Lemma int_of_unsigned_small (u : Z) : 0 <= u <= 2 ^ 31 - 1 -> int_of_unsigned u = u.
Proof.
  intros H. unfold int_of_unsigned.
  assert ((u >? 2 ^ 31 - 1) = false) as -> by (rewrite Z.gtb_ltb, Z.ltb_ge; lia).
  reflexivity.
Qed.

(** X17: what [Model] asks for, without a connection.  With the name at
    position [i] of [model_names], and as second argument, if there is one,
    the rows and columns printed around an [x], the action asks
    [set_rows_cols] for model [2 + i mod 4] with the columns before the
    rows (no oversize with one argument), makes the screen as large as the
    maximum, selects color exactly for the [3279] names, and reports
    whether the model and oversize that result are those asked for. *)
Theorem Model_action_accepted (i : nat) (name : string) (size : option (Z * Z))
    (s : emu) :
  model_names !! i = Some name ->
  0 <= (default (0, 0) size).1 <= 2 ^ 31 - 1 ->
  0 <= (default (0, 0) size).2 <= 2 ^ 31 - 1 ->
  let r := (default (0, 0) size).1 in
  let c := (default (0, 0) size).2 in
  let n := 2 + Z.of_nat (i mod 4) in
  let argv := name :: match size with
                      | Some (r, c) => [pretty r +:+ "x" +:+ pretty c]
                      | None => []
                      end in
  let s1 := set_rows_cols n c r s in
  let s2 := set_ROWS_COLS (maxROWS s1) (maxCOLS s1) s1 in
  let s3 := set_m3279 (bool_decide (4 <= i)%nat) (ctlr_reinit MODEL_CHANGE s2) in
  let s4 := ctlr_erase true (screen_init s3) in
  Model_action set_rows_cols ctlr_reinit MODEL_CHANGE screen_init ctlr_erase
               false argv s
  = (bool_decide (model_num s4 = n) && bool_decide (ov_rows s4 = r)
     && bool_decide (ov_cols s4 = c), s4).
Proof.
  intros Hi Hr Hc.
  assert (U : UINT_MAX = 4294967295) by reflexivity.
  destruct size as [[r c]|]; simpl in Hr, Hc; simpl.
  - pose proof (sscanf_ucuc_size r c ltac:(lia) ltac:(lia)) as Hscan.
    pose proof (int_of_unsigned_small r Hr) as Ir.
    pose proof (int_of_unsigned_small c Hc) as Ic.
    do 8 (destruct i as [|i]; [injection Hi as <-; unfold Model_action, check_argc;
      cbn [length Z.of_nat]; cbv iota beta; rewrite Hscan; simpl; rewrite Ir, Ic;
      reflexivity|]).
    discriminate Hi.
  - do 8 (destruct i as [|i]; [injection Hi as <-; reflexivity|]).
    discriminate Hi.
Qed.

(** X18: what [Model()] prints.  For a model number from 2 to 5 the
    output is the name at position [model_num - 2] of [model_names], four
    places further for a color display, followed when an oversize is set by
    a comma and the oversize rows and columns printed around an [x]; the
    action succeeds, with or without a connection, and changes nothing. *)
Theorem Model_action_query (PCONNECTED : bool) (s : emu) :
  2 <= model_num s <= 5 ->
  exists name,
    model_names !! (Z.to_nat (model_num s - 2) + (if m3279 s then 4 else 0))%nat
      = Some name
    /\ Model_action set_rows_cols ctlr_reinit MODEL_CHANGE screen_init ctlr_erase
                    PCONNECTED [] s
       = (true,
          action_output
            (if (ov_rows s =? 0) && (ov_cols s =? 0) then name
             else name +:+ "," +:+ pretty (ov_rows s) +:+ "x" +:+ pretty (ov_cols s))
            s).
Proof.
  intros Hm.
  assert (E : Model_action set_rows_cols ctlr_reinit MODEL_CHANGE screen_init
                ctlr_erase PCONNECTED [] s
              = (true,
                 action_output
                   (let model := "327" +:+ (if m3279 s then "9" else "8") +:+ "-"
                                       +:+ pretty (model_num s) in
                    if negb (ov_rows s =? 0) || negb (ov_cols s =? 0)
                    then model +:+ "," +:+ pretty (ov_rows s) +:+ "x"
                               +:+ pretty (ov_cols s)
                    else model) s)) by reflexivity.
  rewrite E. clear E. cbv zeta.
  assert (model_num s = 2 \/ model_num s = 3 \/ model_num s = 4 \/ model_num s = 5)
    as Hn by lia.
  destruct (m3279 s), (ov_rows s =? 0), (ov_cols s =? 0);
    destruct Hn as [-> | [-> | [-> | ->]]]; eexists; split; reflexivity.
Qed.

End MoreModelFacts.

Section MoreModelWitness.
Import Actions More.

(** A line not among the eight names: lower-case is not enough here. *)
Lemma Model_action_first_parameter_witness :
  Model_action (fun _ _ _ s => s) (fun _ s => s) 0 (fun s => s) (fun _ s => s)
               false ["3290-2"; "24x80"] (blank_screen 24 80)
  = (false, popup_an_error "Model: First parameter must be 327[89]-[2345]"
              (blank_screen 24 80)).
Proof.
  apply (Model_action_first_parameter
           (fun _ _ _ s => s) (fun _ s => s) 0 (fun s => s) (fun _ s => s)
           "3290-2" ["24x80"] (blank_screen 24 80)).
  - simpl. lia.
  - unfold model_names. rewrite !elem_of_cons, elem_of_nil.
    intros H. repeat (destruct H as [H | H]; [discriminate H|]). exact H.
Defined.

(** [Model(3279-4,50x132)] with a [set_rows_cols] that records what it is
    asked: model 4, color, 50 rows and 132 columns, and the result is true. *)
Lemma Model_action_accepted_witness :
  let src := fun n c r s =>
    Emu (ROWS s) (COLS s) (maxROWS s) (maxCOLS s) n r c (m3279 s) (ea_buf s)
        (mdt s) (popups s) (outputs s) in
  (fun '(ok, s) => (ok, model_num s, m3279 s, ov_rows s, ov_cols s))
    (Model_action src (fun _ s => s) 0 (fun s => s) (fun _ s => s)
                  false ["3279-4"; pretty 50 +:+ "x" +:+ pretty 132] (blank_screen 24 80))
  = (true, 4, true, 50, 132).
Proof.
  intros src.
  rewrite (Model_action_accepted src (fun _ s => s) 0 (fun s => s) (fun _ s => s)
             6 "3279-4" (Some (50, 132)) (blank_screen 24 80)).
  - reflexivity.
  - reflexivity.
  - simpl. lia.
  - simpl. lia.
Defined.

(** [Model()] on a model 2 monochrome screen without oversize prints
    [3278-2]. *)
Lemma Model_action_query_witness :
  exists name,
    model_names !! O = Some name
    /\ Model_action (fun _ _ _ s => s) (fun _ s => s) 0 (fun s => s) (fun _ s => s)
                    true [] (blank_screen 24 80)
       = (true, action_output name (blank_screen 24 80)).
Proof.
  apply (Model_action_query (fun _ _ _ s => s) (fun _ s => s) 0 (fun s => s)
           (fun _ s => s) true (blank_screen 24 80)).
  simpl. lia.
Defined.

End MoreModelWitness.

(** ** The ClearRegion action, on any buffer *)

Section MoreClearRegionFacts.
Import Libc Actions More.

Lemma near_settings (s s' : emu) (b x : Z) :
  same_settings s s' -> near s' b x <-> near s b x.
Proof.
  intros (HR & HC & _). unfold near, INC_BA, DEC_BA. rewrite HR, HC. reflexivity.
Qed.

Lemma same_settings_refl (s : emu) : same_settings s s.
Proof. repeat split. Qed.

Lemma same_settings_trans (s1 s2 s3 : emu) :
  same_settings s1 s2 -> same_settings s2 s3 -> same_settings s1 s3.
Proof. unfold same_settings. intuition congruence. Qed.

Lemma touched_refl (s : emu) (vis : list Z) : touched s s vis.
Proof.
  split; try reflexivity; try tauto.
  - apply same_settings_refl.
  - intros a c0 H. exists c0. auto.
Qed.

Lemma touched_mono (s0 s : emu) (v v' : list Z) :
  (forall b, b ∈ v -> b ∈ v') -> touched s0 s v -> touched s0 s v'.
Proof.
  intros Hv [S P L C M K]. split; try assumption.
  - intros a c0 H. destruct (C a c0 H) as (c & Hc & Hfa & Hdb & Hor).
    exists c. repeat (split; [assumption|]).
    destruct Hor as [-> | (Hsp & b & Hb & Hn)]; [left; reflexivity|].
    right. split; [exact Hsp|]. exists b. auto.
  - intros a H. destruct (M a H); auto.
Qed.

Lemma touched_trans (s0 s1 s2 : emu) (v1 v2 : list Z) :
  touched s0 s1 v1 -> touched s1 s2 v2 -> touched s0 s2 (v1 ++ v2).
Proof.
  intros [S1 P1 L1 C1 M1 K1] [S2 P2 L2 C2 M2 K2]. split.
  - exact (same_settings_trans _ _ _ S1 S2).
  - congruence.
  - congruence.
  - intros a c0 H0.
    destruct (C1 a c0 H0) as (c1 & Hc1 & Hfa1 & Hdb1 & Hor1).
    destruct (C2 a c1 Hc1) as (c2 & Hc2 & Hfa2 & Hdb2 & Hor2).
    exists c2. split; [exact Hc2|]. split; [congruence|]. split; [congruence|].
    destruct Hor2 as [-> | (Hsp & b & Hb & Hn)].
    + destruct Hor1 as [-> | (Hsp & b & Hb & Hn)]; [left; reflexivity|].
      right. split; [exact Hsp|]. exists b. rewrite elem_of_app. auto.
    + right. split; [exact Hsp|]. exists b. rewrite elem_of_app.
      split; [auto|]. apply (near_settings s0 s1), Hn. exact S1.
  - intros a H. rewrite elem_of_app. destruct (M2 a H) as [H1|H1]; [|auto].
    destruct (M1 a H1); auto.
  - auto.
Qed.

Lemma ctlr_add_touched (s s' : emu) (a b k : Z) :
  near s b a -> ctlr_add a EBC_space k s = Some s' -> touched s s' [b].
Proof.
  intros Hn. unfold ctlr_add. destruct (ea_get s a) as [old|] eqn:Hold; [|discriminate].
  simpl. intros [= <-].
  pose proof (ea_get_Some _ _ _ Hold) as Hr. split.
  - repeat split.
  - reflexivity.
  - simpl. apply length_insert.
  - intros x c0 Hx. rewrite (ea_get_set s a x _ Hr). case_bool_decide as E.
    + subst x. assert (c0 = old) as -> by congruence.
      eexists. split; [reflexivity|]. split; [reflexivity|]. split; [reflexivity|].
      right. split; [reflexivity|]. exists b. split; [left|exact Hn].
    + exists c0. auto.
  - intros x H. left. exact H.
  - intros x H. exact H.
Qed.

Lemma mdt_set_touched (s : emu) (b : Z) : touched s (mdt_set b s) [b].
Proof.
  split; try reflexivity.
  - repeat split.
  - intros a c0 H. exists c0. auto.
  - intros a. simpl. rewrite elem_of_union, elem_of_singleton, list_elem_of_singleton.
    tauto.
  - intros a H. simpl. apply elem_of_union. right. exact H.
Qed.

Lemma touched_twice (s0 s1 s2 : emu) (b : Z) :
  touched s0 s1 [b] -> touched s1 s2 [b] -> touched s0 s2 [b].
Proof.
  intros H1 H2. apply (touched_mono s0 s2 ([b] ++ [b])); [|exact (touched_trans _ _ _ _ _ H1 H2)].
  intros x. rewrite elem_of_app. tauto.
Qed.

(** One pass of the loop body, whatever the cell holds. *)
Lemma clear_cell_touched (s s' : emu) (b : Z) :
  clear_cell b s = Some s' -> touched s s' [b].
Proof.
  unfold clear_cell. destruct (skipped s b) as [[|]|]; simpl; [| |discriminate].
  { intros [= <-]. apply touched_refl. }
  destruct (ctlr_dbcs_state s b) as [role|]; simpl; [|discriminate].
  destruct role.
  - destruct (cs_at s b) as [k|]; simpl; [|discriminate].
    destruct (ctlr_add b EBC_space k s) as [s1|] eqn:E1; simpl; [|discriminate].
    intros [= <-]. apply (touched_twice s s1); [|apply mdt_set_touched].
    apply (ctlr_add_touched s s1 b b k); [left; reflexivity | exact E1].
  - destruct (cs_at s b) as [k|]; simpl; [|discriminate].
    destruct (ctlr_add b EBC_space k s) as [s1|] eqn:E1; simpl; [|discriminate].
    intros [= <-]. apply (touched_twice s s1); [|apply mdt_set_touched].
    apply (ctlr_add_touched s s1 b b k); [left; reflexivity | exact E1].
  - destruct (cs_at s b) as [k|]; simpl; [|discriminate].
    destruct (ctlr_add b EBC_space k s) as [s1|] eqn:E1; simpl; [|discriminate].
    destruct (cs_at s1 b) as [k1|]; simpl; [|discriminate].
    destruct (ctlr_add (INC_BA s1 b) EBC_space k1 s1) as [s2|] eqn:E2; simpl;
      [|discriminate].
    intros [= <-].
    assert (T1 : touched s s1 [b])
      by (apply (ctlr_add_touched s s1 b b k); [left; reflexivity | exact E1]).
    assert (T2 : touched s1 s2 [b])
      by (apply (ctlr_add_touched s1 s2 (INC_BA s1 b) b k1);
          [right; left; reflexivity | exact E2]).
    apply (touched_twice s s2); [|apply mdt_set_touched].
    exact (touched_twice _ _ _ _ T1 T2).
  - destruct (cs_at s b) as [k|]; simpl; [|discriminate].
    destruct (ctlr_add (DEC_BA s b) EBC_space k s) as [s1|] eqn:E1; simpl;
      [|discriminate].
    destruct (cs_at s1 b) as [k1|]; simpl; [|discriminate].
    destruct (ctlr_add b EBC_space k1 s1) as [s2|] eqn:E2; simpl; [|discriminate].
    intros [= <-].
    assert (T1 : touched s s1 [b])
      by (apply (ctlr_add_touched s s1 (DEC_BA s b) b k);
          [right; right; reflexivity | exact E1]).
    assert (T2 : touched s1 s2 [b])
      by (apply (ctlr_add_touched s1 s2 b b k1); [left; reflexivity | exact E2]).
    apply (touched_twice s s2); [|apply mdt_set_touched].
    exact (touched_twice _ _ _ _ T1 T2).
  - intros [= <-]. apply mdt_set_touched.
Qed.

(** An invariant of a loop that ran to its end. *)
Lemma for_each_kept {A S : Type} (I : list A -> S -> Prop)
    (body : A -> S -> option S) (l : list A) :
  (forall vis x s s1, I vis s -> x ∈ l -> body x s = Some s1 -> I (vis ++ [x]) s1) ->
  forall pre s s', I pre s -> for_each l body s = Some s' -> I (pre ++ l) s'.
Proof.
  induction l as [|x l IH]; intros Hstep pre s s' HI; simpl.
  - intros [= <-]. rewrite app_nil_r. exact HI.
  - destruct (body x s) as [s1|] eqn:Hb; simpl; [|discriminate].
    intros Hrun.
    pose proof (Hstep pre x s s1 HI ltac:(left) Hb) as HI1.
    pose proof (IH (fun vis y t t1 H Hy => Hstep vis y t t1 H (list_elem_of_further _ _ _ Hy))
                   (pre ++ [x]) s1 s' HI1 Hrun) as HI'.
    rewrite <- app_assoc in HI'. exact HI'.
Qed.

(** The two loops, over any rectangle. *)
Lemma clear_region_touched (s0 s' : emu) (row column rows columns : Z) :
  clear_region row column rows columns s0 = Some s' ->
  touched s0 s' (region s0 row column rows columns).
Proof.
  unfold clear_region, region.
  set (cols := seqZ (column - 1) columns).
  set (rws := seqZ (row - 1) rows).
  intros Hrun.
  apply (for_each_kept
           (fun vis s => touched s0 s (r ← vis; ROWCOL_TO_BA s0 r <$> cols))
           (fun r => for_each cols (fun c s => clear_cell (ROWCOL_TO_BA s r c) s))
           rws) with (pre := []) (s := s0); [|apply touched_refl|exact Hrun].
  intros vis r s s1 HI Hr Hrow.
  pose proof (for_each_kept
                (fun cs t => touched s0 t ((r ← vis; ROWCOL_TO_BA s0 r <$> cols)
                                             ++ (ROWCOL_TO_BA s0 r <$> cs)))
                (fun c t => clear_cell (ROWCOL_TO_BA t r c) t) cols) as Hin.
  rewrite bind_app. simpl. rewrite app_nil_r.
  apply (Hin) with (pre := @nil Z) (s := s); [| |exact Hrow].
  - intros cs c t t1 Ht Hc Hcell.
    assert (HB : ROWCOL_TO_BA t r c = ROWCOL_TO_BA s0 r c).
    { unfold ROWCOL_TO_BA. destruct (tc_settings _ _ _ Ht) as (_ & -> & _). reflexivity. }
    rewrite HB in Hcell. apply clear_cell_touched in Hcell.
    rewrite fmap_app, app_assoc. exact (touched_trans _ _ _ _ _ Ht Hcell).
  - simpl. rewrite app_nil_r. exact HI.
Qed.

Lemma reported_popup (s s1 : emu) (msg : string) (n : nat) :
  same_settings s s1 /\ ea_buf s1 = ea_buf s /\ mdt s1 = mdt s
  /\ (exists msgs, popups s1 = popups s ++ msgs /\ length msgs = n) ->
  same_settings s (popup_an_error msg s1)
  /\ ea_buf (popup_an_error msg s1) = ea_buf s
  /\ mdt (popup_an_error msg s1) = mdt s
  /\ (exists msgs, popups (popup_an_error msg s1) = popups s ++ msgs
                   /\ length msgs = S n).
Proof.
  intros (S & B & M & msgs & P & L). split; [exact S|]. split; [exact B|].
  split; [exact M|]. exists (msgs ++ [msg]). simpl. rewrite P, app_assoc.
  split; [reflexivity|]. rewrite length_app. simpl. lia.
Qed.

(** The whole action: either the argument count is wrong and only that is
    reported, or there are four arguments, at most two errors are reported,
    and then the loops run. *)
Lemma ClearRegion_action_touched (argv : list string) (s : emu) (ok : bool) (s' : emu) :
  ClearRegion_action argv s = Some (ok, s') ->
  (length argv <> 4%nat /\ ok = false
   /\ s' = popup_an_error "ClearRegion: wrong number of arguments" s)
  \/ (length argv = 4%nat /\ ok = true
      /\ exists s1, reported s s1
           /\ touched s1 s' (region s (atoi (nth 0 argv "")) (atoi (nth 1 argv ""))
                                      (atoi (nth 2 argv "")) (atoi (nth 3 argv "")))).
Proof.
  unfold ClearRegion_action, check_argc.
  destruct ((4 <=? Z.of_nat (length argv)) && (Z.of_nat (length argv) <=? 4)) eqn:E.
  2:{ cbv iota beta. change (-1 <? 0) with true. cbv iota. intros [= <- <-].
      left. split; [|split; reflexivity]. intros H. rewrite H in E. discriminate E. }
  cbv iota beta. change (0 <? 0) with false. cbv iota.
  apply andb_true_iff in E as [E1 E2]. apply Z.leb_le in E1, E2.
  set (row := atoi (nth 0 argv "")). set (column := atoi (nth 1 argv "")).
  set (rows := atoi (nth 2 argv "")). set (columns := atoi (nth 3 argv "")).
  cbv zeta.
  set (c1 := (row <=? 0) || (row >? ROWS s) || (column <=? 0) || (column >? COLS s)).
  set (t1 := if c1 then popup_an_error "ClearRegion: invalid coordinates" s else s).
  set (c2 := (rows <? 0) || (columns <? 0) || (row - 1 + rows >? ROWS t1)
             || (column - 1 + columns >? COLS t1)).
  set (t2 := if c2 then popup_an_error "ClearRegion: invalid size" t1 else t1).
  clearbody c2. clearbody c1.
  intros Hrun. right. split; [lia|].
  assert (R1 : same_settings s t1 /\ ea_buf t1 = ea_buf s /\ mdt t1 = mdt s
               /\ exists msgs, popups t1 = popups s ++ msgs /\ (length msgs <= 1)%nat).
  { unfold t1. destruct c1.
    - repeat split. exists ["ClearRegion: invalid coordinates"]. split; [reflexivity|].
      simpl. lia.
    - repeat split. exists []. rewrite app_nil_r. split; [reflexivity|]. simpl. lia. }
  assert (R2 : reported s t2).
  { destruct R1 as (S & B & M & msgs & P & L). unfold t2. destruct c2.
    - destruct (reported_popup s t1 "ClearRegion: invalid size" (length msgs))
        as (S' & B' & M' & msgs' & P' & L'); [eauto 10|].
      split; [exact S'|]. split; [exact B'|]. split; [exact M'|].
      exists msgs'. split; [exact P'|]. lia.
    - split; [exact S|]. split; [exact B|]. split; [exact M|].
      exists msgs. split; [exact P|]. lia. }
  assert (HR : region s row column rows columns = region t2 row column rows columns).
  { unfold region, ROWCOL_TO_BA. destruct R2 as ((_ & -> & _) & _). reflexivity. }
  rewrite HR.
  destruct ((rows =? 0) || (columns =? 0)).
  - injection Hrun as <- <-. split; [reflexivity|]. exists t2.
    split; [exact R2 | apply touched_refl].
  - destruct (clear_region row column rows columns t2) as [u|] eqn:Hu; [|discriminate].
    simpl in Hrun. injection Hrun as <- <-. split; [reflexivity|]. exists t2.
    split; [exact R2 | apply clear_region_touched, Hu].
Qed.

(** X19: what [ClearRegion] can never do.  Whatever the arguments and
    whatever the buffer holds, a call that runs to its end returns true
    exactly when it was given four arguments; it leaves the geometry, the
    model and the action output alone and reports at most two errors; the
    buffer keeps its length, every cell keeps its field attribute and its
    role and either is as it was or holds a space; and no mark is taken
    away. *)
Theorem ClearRegion_action_safe (argv : list string) (s : emu) (ok : bool) (s' : emu) :
  ClearRegion_action argv s = Some (ok, s') ->
  (ok = true <-> length argv = 4%nat)
  /\ same_settings s s'
  /\ (exists msgs, popups s' = popups s ++ msgs /\ (length msgs <= 2)%nat)
  /\ only_blanked s s'
  /\ (forall a, a ∈ mdt s -> a ∈ mdt s').
Proof.
  intros H. apply ClearRegion_action_touched in H.
  destruct H as [(Hn & -> & ->) | (Hn & -> & s1 & (S & B & M & msgs & P & L) & T)].
  - split; [split; [discriminate | intros H; contradiction]|].
    split; [repeat split|].
    split; [exists ["ClearRegion: wrong number of arguments"]; split; [reflexivity | simpl; lia]|].
    split; [|auto].
    split; [reflexivity|]. intros a c H. exists c. auto.
  - destruct T as [S' P' L' C' M' K'].
    split; [tauto|]. split; [exact (same_settings_trans _ _ _ S S')|].
    split; [exists msgs; split; [congruence | exact L]|].
    split.
    + split; [rewrite L', B; reflexivity|].
      intros a c Ha.
      assert (Ha1 : ea_get s1 a = Some c) by (unfold ea_get in *; rewrite B; exact Ha).
      destruct (C' a c Ha1) as (c' & Hc' & Hfa & Hdb & Hor).
      exists c'. repeat (split; [assumption|]).
      destruct Hor as [-> | [Hsp _]]; auto.
    + intros a Ha. apply K'. rewrite M. exact Ha.
Qed.

(** X20: [ClearRegion] works within its rectangle and one cell around
    it.  For a call with four arguments that runs to its end, whether or
    not the rectangle passed the checks: only addresses the loops visit get
    marked, and a cell that is neither a visited address nor the address
    after or before one is exactly as it was. *)
Theorem ClearRegion_action_local (a0 a1 a2 a3 : string) (s : emu) (ok : bool) (s' : emu) :
  ClearRegion_action [a0; a1; a2; a3] s = Some (ok, s') ->
  let vis := region s (atoi a0) (atoi a1) (atoi a2) (atoi a3) in
  (forall a, a ∈ mdt s' -> a ∈ mdt s \/ a ∈ vis)
  /\ (forall x, (forall b, b ∈ vis -> ~ near s b x) -> ea_get s' x = ea_get s x).
Proof.
  intros H vis. apply ClearRegion_action_touched in H.
  destruct H as [(Hn & _) | (_ & _ & s1 & (S & B & M & _) & T)];
    [exfalso; apply Hn; reflexivity|].
  simpl nth in T. fold vis in T.
  destruct T as [S' P' L' C' M' K']. split.
  - intros a Ha. rewrite <- M. apply M', Ha.
  - intros x Hx.
    assert (E1 : ea_get s1 x = ea_get s x) by (unfold ea_get; rewrite B; reflexivity).
    rewrite <- E1.
    destruct (ea_get s1 x) as [c|] eqn:Hc.
    + destruct (C' x c Hc) as (c' & Hc' & _ & _ & [-> | (_ & b & Hb & Hnear)]);
        [exact Hc'|].
      exfalso. apply (Hx b Hb). apply (near_settings s s1), Hnear. exact S.
    + unfold ea_get in *. destruct (x <? 0); [reflexivity|].
      apply lookup_ge_None in Hc. apply lookup_ge_None. lia.
Qed.

(** [ClearRegion(1,3,1,2)] on a blank screen of 2 rows and 3 columns: the
    rectangle runs past the right edge, the call still returns true. *)
Lemma ClearRegion_action_safe_witness :
  let s := blank_screen 2 3 in
  let s' := default s (snd <$> ClearRegion_action ["1"; "3"; "1"; "2"] s) in
  ClearRegion_action ["1"; "3"; "1"; "2"] s = Some (true, s') /\ only_blanked s s'.
Proof.
  intros s s'.
  assert (E : ClearRegion_action ["1"; "3"; "1"; "2"] s = Some (true, s'))
    by (vm_compute; reflexivity).
  split; [exact E|].
  exact (proj1 (proj2 (proj2 (proj2 (ClearRegion_action_safe _ _ _ _ E))))).
Defined.

(** The same call leaves the cell at address 0 as it was. *)
Lemma ClearRegion_action_local_witness :
  let s := blank_screen 2 3 in
  let s' := default s (snd <$> ClearRegion_action ["1"; "3"; "1"; "2"] s) in
  ea_get s' 0 = ea_get s 0.
Proof.
  intros s s'.
  assert (E : ClearRegion_action ["1"; "3"; "1"; "2"] s = Some (true, s'))
    by (vm_compute; reflexivity).
  apply (proj2 (ClearRegion_action_local _ _ _ _ _ _ _ E)).
  intros b Hb Hn.
  assert (Hr : region s (atoi "1") (atoi "3") (atoi "1") (atoi "2") = [2; 3])
    by (vm_compute; reflexivity).
  rewrite Hr in Hb. rewrite !elem_of_cons, elem_of_nil in Hb.
  unfold near in Hn.
  destruct Hb as [-> | [-> | []]]; vm_compute in Hn;
    destruct Hn as [Hn | [Hn | Hn]]; discriminate Hn.
Defined.



End MoreClearRegionFacts.
